(** * tally_extractor: a shallow embedding of [tally_extractor.py]

    The script reads every [.mctal] file of a directory, normalises its
    lines, extracts tally names, energies, errors, the MCNP version and the
    particle count, builds one three-column table per file and writes the
    side-by-side concatenation of these tables to [tally_extractor.xlsx].

    Python strings are modelled as lists of 8-bit characters (code points
    0..255).  Exceptions are modelled by the [result] type; the directory and
    the written spreadsheet are threaded through a small state-and-error
    monad. *)

From Stdlib Require Import Ascii String List Arith Bool Lia ZArith.
From Stdlib Require Import Sorted Permutation.
Import ListNotations.

Set Implicit Arguments.

(* ================================================================= *)
(** ** Strings and characters *)

Definition str := list ascii.

(** A string literal as a Python [str]. *)
Notation "$ s" := (list_ascii_of_string s) (at level 1, format "$ s").

Definition str_eqb (a b : str) : bool :=
  if list_eq_dec ascii_dec a b then true else false.

(** [str.isspace] on one character, which is also the class [\s] of the
    [re] module and the separator set of [str.split()] and [str.strip()]:
    TAB..CR, FS..US, SPACE, NEL (0x85) and NBSP (0xA0). *)
Definition is_space (c : ascii) : bool :=
  let n := nat_of_ascii c in
  ((9 <=? n) && (n <=? 13)) || ((28 <=? n) && (n <=? 32))
  || (n =? 133) || (n =? 160).

(** The class [\d] of the [re] module below code point 256. *)
Definition is_digit (c : ascii) : bool :=
  let n := nat_of_ascii c in (48 <=? n) && (n <=? 57).

Definition not_space (c : ascii) : bool := negb (is_space c).

(** Lower-casing as the [re] module does it for [re.IGNORECASE], below code
    point 256: A..Z and the accented capitals (except the multiplication
    sign) move 32 places up. *)
Definition tolower (c : ascii) : ascii :=
  let n := nat_of_ascii c in
  if ((65 <=? n) && (n <=? 90))
     || ((192 <=? n) && (n <=? 222) && negb (n =? 215))
  then ascii_of_nat (n + 32) else c.

Fixpoint drop_while (p : ascii -> bool) (s : str) : str :=
  match s with
  | [] => []
  | c :: s' => if p c then drop_while p s' else s
  end.

Fixpoint take_while (p : ascii -> bool) (s : str) : str :=
  match s with
  | [] => []
  | c :: s' => if p c then c :: take_while p s' else []
  end.

(** [str.lstrip()], [str.rstrip()] and [str.strip()] without argument. *)
Definition lstrip (s : str) : str := drop_while is_space s.
Definition rstrip (s : str) : str := rev (drop_while is_space (rev s)).
Definition strip (s : str) : str := rstrip (lstrip s).

(** Truth value of a Python string: non-empty. *)
Definition truthy (s : str) : bool :=
  match s with [] => false | _ :: _ => true end.

(** [s.startswith(p)], [s.endswith(p)] and [p in s]. *)
Fixpoint startswith (p s : str) : bool :=
  match p, s with
  | [], _ => true
  | _ :: _, [] => false
  | a :: p', b :: s' => Ascii.eqb a b && startswith p' s'
  end.

Definition endswith (p s : str) : bool := startswith (rev p) (rev s).

Fixpoint contains (p s : str) : bool :=
  startswith p s
  || match s with
     | [] => false
     | _ :: s' => contains p s'
     end.

(** [str.split()] without argument: the maximal runs of non-whitespace
    characters, left to right.  [cur] is the current run, reversed. *)
Fixpoint split_aux (cur : str) (s : str) : list str :=
  match s with
  | [] => if truthy cur then [rev cur] else []
  | c :: s' =>
      if is_space c
      then (if truthy cur then rev cur :: split_aux [] s' else split_aux [] s')
      else split_aux (c :: cur) s'
  end.

Definition split (s : str) : list str := split_aux [] s.

(* ================================================================= *)
(** ** Exceptions *)

Inductive exn : Type :=
| IndexError   (* list index out of range *)
| ValueError   (* float() of a non-numeric token, columns of unequal length *)
| OSError.     (* listing or opening fails *)

Inductive result (A : Type) : Type :=
| Ok (a : A)
| Raise (e : exn).

Arguments Ok {A} a.
Arguments Raise {A} e.

Definition rbind {A B} (r : result A) (f : A -> result B) : result B :=
  match r with
  | Ok a => f a
  | Raise e => Raise e
  end.

Notation "x <- c1 ;; c2" := (rbind c1 (fun x => c2))
  (at level 61, c1 at next level, right associativity).

(** A list comprehension whose element expression may raise: elements are
    evaluated left to right and the first exception ends the evaluation. *)
Fixpoint mapR {A B} (f : A -> result B) (l : list A) : result (list B) :=
  match l with
  | [] => Ok []
  | x :: l' =>
      y <- f x ;;
      ys <- mapR f l' ;;
      Ok (y :: ys)
  end.

Definition is_ok {A} (r : result A) : bool :=
  match r with Ok _ => true | Raise _ => false end.

(** [l[i]] for a non-negative index. *)
Definition index {A} (l : list A) (i : nat) : result A :=
  match nth_error l i with
  | Some x => Ok x
  | None => Raise IndexError
  end.

(** [l[-1]]. *)
Definition index_last {A} (l : list A) : result A :=
  match rev l with
  | x :: _ => Ok x
  | [] => Raise IndexError
  end.

Fixpoint enumerate_from {A} (i : nat) (l : list A) : list (nat * A) :=
  match l with
  | [] => []
  | x :: l' => (i, x) :: enumerate_from (S i) l'
  end.

Definition enumerate {A} (l : list A) : list (nat * A) := enumerate_from 0 l.

(* ================================================================= *)
(** ** The extraction functions *)

(** [[line.strip() for line in file_lines if line.strip()]] *)
Definition remove_blank_lines (file_lines : list str) : list str :=
  map strip (filter (fun line => truthy (strip line)) file_lines).

(** [[file_lines[i + 2] for i, line in enumerate(file_lines) if 'tally' in line]] *)
Definition extract_tally_names (file_lines : list str) : result (list str) :=
  mapR (fun il => index file_lines (fst il + 2))
       (filter (fun il => contains $"tally" (snd il)) (enumerate file_lines)).

(** [[file_lines[i + 1] for i, line in enumerate(file_lines) if line == 'vals']] *)
Definition extract_tally_values (file_lines : list str) : result (list str) :=
  mapR (fun il => index file_lines (fst il + 1))
       (filter (fun il => str_eqb (snd il) $"vals") (enumerate file_lines)).

(** [[value.split()[0] for value in tally_values]] *)
Definition extract_energies (tally_values : list str) : result (list str) :=
  mapR (fun value => index (split value) 0) tally_values.

(** [[value.split()[-1] for value in tally_values]] *)
Definition extract_errors (tally_values : list str) : result (list str) :=
  mapR (fun value => index_last (split value)) tally_values.

(* ================================================================= *)
(** ** The fragment of the [re] module the script uses

    The three patterns of the script are sequences of quantified
    one-character atoms.  Matching is the backtracking search of [re]:
    [re.search] tries the start positions left to right, and a quantifier
    is greedy, giving characters back one at a time. *)

Inductive atom : Type :=
| Lit (c : ascii)   (* a literal character *)
| AnySpace          (* \s *)
| AnyDigit.         (* \d *)

Inductive quant : Type :=
| Once                   (* no quantifier *)
| Plus                   (* + *)
| Between (m n : nat).   (* {m,n} *)

Record piece : Type := Piece { p_atom : atom; p_quant : quant }.

Definition regex := list piece.

Definition atom_matches (ignorecase : bool) (a : atom) (c : ascii) : bool :=
  match a with
  | Lit l =>
      if ignorecase then Ascii.eqb (tolower c) (tolower l) else Ascii.eqb c l
  | AnySpace => is_space c
  | AnyDigit => is_digit c
  end.

Definition q_min (q : quant) : nat :=
  match q with Once => 1 | Plus => 1 | Between m _ => m end.

Definition q_max (q : quant) : option nat :=
  match q with Once => Some 1 | Plus => None | Between _ n => Some n end.

Definition more (hi : option nat) : bool :=
  match hi with Some 0 => false | _ => true end.

(** One quantified atom followed by the continuation [k]: take a character
    while the class and the upper bound allow it, and fall back to stopping
    here when the rest fails further on. *)
Fixpoint rep (p : ascii -> bool) (lo : nat) (hi : option nat)
    (k : str -> option (list str)) (acc : str) (s : str)
  : option (list str) :=
  let stop :=
    match lo with
    | 0 => option_map (cons (rev acc)) (k s)
    | S _ => None
    end in
  match s with
  | c :: s' =>
      if p c && more hi then
        match rep p (pred lo) (option_map pred hi) k (c :: acc) s' with
        | Some m => Some m
        | None => stop
        end
      else stop
  | [] => stop
  end.

(** Match the pattern at the start of [s]; the result lists the text
    matched by each piece. *)
Fixpoint match_here (ignorecase : bool) (ps : regex) (s : str)
  : option (list str) :=
  match ps with
  | [] => Some []
  | p :: ps' =>
      rep (atom_matches ignorecase (p_atom p)) (q_min (p_quant p))
          (q_max (p_quant p)) (match_here ignorecase ps') [] s
  end.

(** [re.search(pattern, s)] *)
Fixpoint search (ignorecase : bool) (ps : regex) (s : str)
  : option (list str) :=
  match match_here ignorecase ps s with
  | Some m => Some m
  | None =>
      match s with
      | [] => None
      | _ :: s' => search ignorecase ps s'
      end
  end.

Definition is_some {A} (o : option A) : bool :=
  match o with Some _ => true | None => false end.

Definition lits (s : str) : regex := map (fun c => Piece (Lit c) Once) s.

(** [r"mcnpx"], [r"mcnp\s+6"] and [r"\s(\d{8,11})\s"] *)
Definition re_mcnpx : regex := lits $"mcnpx".
Definition re_mcnp6 : regex := lits $"mcnp" ++ [Piece AnySpace Plus] ++ lits $"6".
Definition re_nps : regex :=
  [Piece AnySpace Once; Piece AnyDigit (Between 8 11); Piece AnySpace Once].

(** [match.group(1)] for [re_nps], whose only group is its second piece. *)
Definition group1 (m : list str) : str := nth 1 m [].

Definition extract_version (file_lines : list str) : result str :=
  first_line <- index file_lines 0 ;;
  if is_some (search true re_mcnpx first_line) then Ok $"MCNPX"
  else if is_some (search true re_mcnp6 first_line) then Ok $"MCNP6"
  else Ok $"Version not found".

Definition extract_particles (file_lines : list str) : result str :=
  first_line <- index file_lines 0 ;;
  match search false re_nps first_line with
  | Some m => Ok ($"NPS: " ++ group1 m)
  | None => Ok $"Particles not found"
  end.


(* ================================================================= *)
(** ** Paths, sorting and the table of one file *)

(** [s.rfind(c)] for a one-character [c]; [None] stands for -1. *)
Fixpoint rfind (c : ascii) (s : str) : option nat :=
  match s with
  | [] => None
  | x :: s' =>
      match rfind c s' with
      | Some i => Some (S i)
      | None => if Ascii.eqb x c then Some 0 else None
      end
  end.

Definition idx (o : option nat) : Z :=
  match o with Some i => Z.of_nat i | None => (-1)%Z end.

(** [p[a:b]] for [0 <= a]. *)
Definition slice (p : str) (a b : Z) : str :=
  firstn (Z.to_nat (b - a)) (skipn (Z.to_nat a) p).

(** [os.path.splitext] (POSIX): the extension starts at the last dot of the
    last path component, unless only dots precede it there. *)
Definition splitext (p : str) : str * str :=
  let sepIndex := idx (rfind "/" p) in
  let dotIndex := idx (rfind "." p) in
  if (sepIndex <? dotIndex)%Z
     && existsb (fun c => negb (Ascii.eqb c ".")) (slice p (sepIndex + 1) dotIndex)
  then (firstn (Z.to_nat dotIndex) p, skipn (Z.to_nat dotIndex) p)
  else (p, []).

(** [os.path.join(a, b)] (POSIX). *)
Definition path_join (a b : str) : str :=
  if startswith $"/" b then b
  else if negb (truthy a) || endswith $"/" a then a ++ b
  else a ++ $"/" ++ b.

(** Python's order on strings: lexicographic on code points. *)
Fixpoint str_leb (a b : str) : bool :=
  match a, b with
  | [], _ => true
  | _ :: _, [] => false
  | x :: a', y :: b' =>
      if nat_of_ascii x <? nat_of_ascii y then true
      else if nat_of_ascii y <? nat_of_ascii x then false
      else str_leb a' b'
  end.

Fixpoint insert_sorted (x : str) (l : list str) : list str :=
  match l with
  | [] => [x]
  | y :: l' => if str_leb x y then x :: l else y :: insert_sorted x l'
  end.

(** [sorted(l)] on strings. *)
Definition sorted (l : list str) : list str := fold_right insert_sorted [] l.

(** The built-in [float] applied to a string: the number it denotes, or
    nothing when [float] raises [ValueError]. *)
Class FloatParser : Type := {
  Float : Type;
  py_float : str -> option Float
}.

Section Pipeline.
Context `{FP : FloatParser}.

Definition to_float (token : str) : result Float :=
  match py_float token with
  | Some x => Ok x
  | None => Raise ValueError
  end.

(** A spreadsheet cell: a label or a number. *)
Inductive cell : Type :=
| CStr (s : str)
| CNum (x : Float).

(** A three-column table, as [pd.DataFrame] builds it from a dictionary of
    three lists. *)
Record DataFrame : Type := {
  Names : list cell;
  Values : list cell;
  Errors : list cell
}.

(** [pd.DataFrame({'Names': .., 'Values': .., 'Errors': ..})]: columns of
    unequal length are refused with a [ValueError]. *)
Definition new_DataFrame (names values errors : list cell) : result DataFrame :=
  if (length names =? length values) && (length values =? length errors)
  then Ok {| Names := names; Values := values; Errors := errors |}
  else Raise ValueError.

Definition nrows (df : DataFrame) : nat := length (Names df).

(** The aggregate: the tables of the files so far, side by side
    ([pd.concat(.., axis=1)] appends one on the right). *)
Definition Report := list DataFrame.

(** The body of the loop of [process_files] for one file, from the lines
    [readlines()] returned to the table of the file. *)
Definition file_table (file : str) (raw_lines : list str) : result DataFrame :=
  let file_lines := remove_blank_lines raw_lines in
  let file_name := fst (splitext file) in
  mcnp_version <- extract_version file_lines ;;
  particle_count <- extract_particles file_lines ;;
  tally_values <- extract_tally_values file_lines ;;
  tally_names <- extract_tally_names file_lines ;;
  energy_tokens <- extract_energies tally_values ;;
  energies <- mapR to_float energy_tokens ;;
  error_tokens <- extract_errors tally_values ;;
  errors <- mapR to_float error_tokens ;;
  let tally_names := CStr file_name :: map CStr tally_names in
  let energies := CStr mcnp_version :: map CNum energies in
  let errors := CStr particle_count :: map CNum errors in
  new_DataFrame tally_names energies errors.

(* ----------------------------------------------------------------- *)
(** *** The file system and the run *)

(** What the run sees of the outside: directory listings, the lines of
    each readable file, and the spreadsheets present, by path. *)
Record world : Type := {
  listing : str -> result (list str);
  lines_of : str -> result (list str);
  workbook : str -> option Report
}.

Definition M (A : Type) : Type := world -> result A * world.

Definition mret {A} (a : A) : M A := fun w => (Ok a, w).

Definition mbind {A B} (m : M A) (f : A -> M B) : M B :=
  fun w =>
    match m w with
    | (Ok a, w') => f a w'
    | (Raise e, w') => (Raise e, w')
    end.

Definition lift {A} (r : result A) : M A := fun w => (r, w).

Notation "x <~ c1 ;; c2" := (mbind c1 (fun x => c2))
  (at level 61, c1 at next level, right associativity).

(** A [for] loop that threads an accumulator. *)
Fixpoint for_each {A B} (l : list A) (body : B -> A -> M B) (acc : B) : M B :=
  match l with
  | [] => mret acc
  | x :: l' => acc' <~ body acc x ;; for_each l' body acc'
  end.

Definition os_listdir (path : str) : M (list str) :=
  fun w => (listing w path, w).

Definition open_readlines (path : str) : M (list str) :=
  fun w => (lines_of w path, w).

Definition to_excel (df : Report) (path : str) : M unit :=
  fun w =>
    (Ok tt,
     {| listing := listing w;
        lines_of := lines_of w;
        workbook := fun p => if str_eqb p path then Some df else workbook w p |}).

Definition mctal_files_of (names : list str) : list str :=
  sorted (filter (endswith $".mctal") names).

Definition process_files (directory_path : str) : M unit :=
  names <~ os_listdir directory_path ;;
  let mctal_files := mctal_files_of names in
  results_df <~
    for_each mctal_files
      (fun results_df file =>
         let file_path := path_join directory_path file in
         raw_lines <~ open_readlines file_path ;;
         data_df <~ lift (file_table file raw_lines) ;;
         mret (results_df ++ [data_df]))
      [] ;;
  let output_file := path_join directory_path $"tally_extractor.xlsx" in
  to_excel results_df output_file.

(** Reading one file of the directory and building its table. *)
Definition load_table (w : world) (directory_path file : str)
  : result DataFrame :=
  raw_lines <- lines_of w (path_join directory_path file) ;;
  file_table file raw_lines.

(** The energies and the errors as numbers, as [file_table] computes
    them from the value lines. *)
Definition float_energies (tally_values : list str) : result (list Float) :=
  tokens <- extract_energies tally_values ;; mapR to_float tokens.

Definition float_errors (tally_values : list str) : result (list Float) :=
  tokens <- extract_errors tally_values ;; mapR to_float tokens.

End Pipeline.

(* ================================================================= *)
(** ** Definitions used to state the properties *)

(** A string with at least one non-whitespace character. *)
Definition nonblank (s : str) : bool := existsb not_space s.

(** The first and the last whitespace-delimited token of a string, read
    off the string directly rather than through [split]. *)
Definition spec_first_token (s : str) : str :=
  take_while not_space (drop_while is_space s).

Definition spec_last_token (s : str) : str :=
  rev (take_while not_space (drop_while is_space (rev s))).

(** A line sequence is normalized when normalizing it changes nothing. *)
Definition normalized (file_lines : list str) : Prop :=
  remove_blank_lines file_lines = file_lines.

Definition count_tally (file_lines : list str) : nat :=
  length (filter (contains $"tally") file_lines).

Definition count_vals (file_lines : list str) : nat :=
  length (filter (fun line => str_eqb line $"vals") file_lines).

(** The comprehension shared by [extract_tally_names] and
    [extract_tally_values], with the test and the offset as parameters. *)
Definition extract_at (test : str -> bool) (off : nat) (file_lines : list str)
  : result (list str) :=
  mapR (fun il => index file_lines (fst il + off))
       (filter (fun il => test (snd il)) (enumerate file_lines)).

(** *** A declarative reading of the patterns *)

Definition within (n : nat) (hi : option nat) : Prop :=
  match hi with Some m => n <= m | None => True end.

(** The text [g] is an admissible match of the piece [p]. *)
Definition piece_ok (ignorecase : bool) (p : piece) (g : str) : Prop :=
  forallb (atom_matches ignorecase (p_atom p)) g = true
  /\ q_min (p_quant p) <= length g
  /\ within (length g) (q_max (p_quant p)).

Definition is_lower_letter (c : ascii) : bool :=
  let n := nat_of_ascii c in (97 <=? n) && (n <=? 122).

(** [c] is the letter [l] in either case ([l] itself when [l] is not a
    lower-case letter). *)
Definition same_letter (l c : ascii) : bool :=
  Ascii.eqb c l
  || (is_lower_letter l && (nat_of_ascii c + 32 =? nat_of_ascii l)).

Definition spec_ci_equal (w x : str) : Prop :=
  Forall2 (fun l c => same_letter l c = true) w x.

(** The line contains [mcnpx], in any mix of cases. *)
Definition spec_has_mcnpx (line : str) : Prop :=
  exists pre mid post,
    line = pre ++ mid ++ post /\ spec_ci_equal $"mcnpx" mid.

(** The line contains [mcnp] in any mix of cases, then one or more
    whitespace characters, then [6]. *)
Definition spec_has_mcnp6 (line : str) : Prop :=
  exists pre mid ws post,
    line = pre ++ mid ++ ws ++ "6"%char :: post
    /\ spec_ci_equal $"mcnp" mid
    /\ ws <> [] /\ forallb is_space ws = true.

(** After the prefix [pre], the line has a whitespace character, the 8 to
    11 digits [ds], and a whitespace character. *)
Definition spec_delimited_run (line pre ds : str) : Prop :=
  exists w1 w2 post,
    line = pre ++ w1 :: ds ++ w2 :: post
    /\ is_space w1 = true /\ is_space w2 = true
    /\ forallb is_digit ds = true /\ 8 <= length ds <= 11.

(** Some whitespace-separated token of the line is a run of 8 to 11
    digits. *)
Definition spec_digit_token (line : str) : bool :=
  existsb (fun t => forallb is_digit t && (8 <=? length t) && (length t <=? 11))
          (split line).

(* ================================================================= *)
(** ** A sample directory *)

(** A [float] for plain decimal literals such as [1.0] and [0.05]: the
    number is kept as its digits and the count of digits after the point. *)
Fixpoint decimal_aux (s : str) (mantissa : N) (frac : option nat)
  : option (N * nat) :=
  match s with
  | [] => Some (mantissa, match frac with Some k => k | None => 0 end)
  | c :: s' =>
      if is_digit c then
        decimal_aux s' (10 * mantissa + N.of_nat (nat_of_ascii c - 48))%N
                    (option_map S frac)
      else if Ascii.eqb c "." then
        match frac with
        | None => decimal_aux s' mantissa (Some 0)
        | Some _ => None
        end
      else None
  end.

Definition decimal (s : str) : option (N * nat) :=
  if existsb is_digit s then decimal_aux s 0%N None else None.

Definition DecimalParser : FloatParser :=
  {| Float := (N * nat)%type; py_float := decimal |}.

Definition sample_good : list str :=
  [ $"mcnp   6  01/01/24 10:00:00  1  12345678  99";
    $"   ";
    $"tally 4";
    $" f 0";
    $"flux cell 1  ";
    $"vals";
    $" 1.0 2.0 0.05" ].

Definition sample_short : list str := [ $"mcnpx ver 2.7"; $"vals" ].

Definition sample_mismatch : list str :=
  [ $"mcnp 6 x"; $"tally 4"; $"f 0"; $"flux cell 1" ].

Definition sample_blank : list str := [ $"   "; $"" ].

Definition sample_world (names : list str) : @world DecimalParser :=
  {| listing := fun p => if str_eqb p $"runs" then Ok names else Raise OSError;
     lines_of := fun p =>
       if str_eqb p $"runs/good.mctal" then Ok sample_good
       else if str_eqb p $"runs/short.mctal" then Ok sample_short
       else if str_eqb p $"runs/mismatch.mctal" then Ok sample_mismatch
       else if str_eqb p $"runs/blank.mctal" then Ok sample_blank
       else Raise OSError;
     workbook := fun _ => None |}.

Definition sample_plain : list str :=
  [ $"mcnpx 2.7 12345678 1"; $"tally 4"; $"f 0"; $"flux cell 1";
    $"vals"; $"1.0 2.0 0.05" ].

Definition sample_indented : list str :=
  [ $"mcnpx 2.7 12345678 1  "; $" tally 4"; $"  f 0"; $"  flux cell 1";
    $" vals"; $"   1.0 2.0 0.05 " ].

Definition sample_good_table : @DataFrame DecimalParser :=
  {| Names := [CStr $"good"; CStr $"flux cell 1"];
     Values := [CStr $"MCNP6"; @CNum DecimalParser (10%N, 1)];
     Errors := [CStr $"NPS: 12345678"; @CNum DecimalParser (5%N, 2)] |}.

(* ================================================================= *)
(** ** Definitions used to state further properties *)

(** A non-empty string that neither starts nor ends with whitespace. *)
Definition trimmed (l : str) : Prop :=
  l <> []
  /\ is_space (hd " "%char l) = false
  /\ is_space (last l " "%char) = false.

(** A non-empty string without any whitespace character. *)
Definition clean_token (t : str) : Prop :=
  t <> [] /\ forallb not_space t = true.

(** [l'] is [l] with whitespace added in front and behind. *)
Definition padded (l l' : str) : Prop :=
  exists pre post,
    forallb is_space pre = true /\ forallb is_space post = true
    /\ l' = pre ++ l ++ post.

Definition str_le (a b : str) : Prop := str_leb a b = true.

(** Lexicographic order on code points: [a] is a prefix of [b], or at the
    first position where they differ [a] has the smaller character. *)
Definition spec_lex_le (a b : str) : Prop :=
  (exists r, b = a ++ r)
  \/ (exists common x y ra rb,
        a = common ++ x :: ra /\ b = common ++ y :: rb
        /\ nat_of_ascii x < nat_of_ascii y).

(** Where the run writes its report. *)
Definition output_path (directory_path : str) : str :=
  path_join directory_path $"tally_extractor.xlsx".

Section Shapes.
Context `{FP : FloatParser}.

Definition is_label (c : cell) : bool :=
  match c with CStr _ => true | CNum _ => false end.

Definition is_number (c : cell) : bool :=
  match c with CStr _ => false | CNum _ => true end.

(** A label on top of numbers. *)
Definition labelled_numbers (column : list cell) : Prop :=
  exists label numbers,
    column = CStr label :: numbers /\ forallb is_number numbers = true.

(** Three columns of one length, at least the header row; names are
    labels, values and errors are numbers under a label. *)
Definition well_formed (df : DataFrame) : Prop :=
  length (Names df) = length (Values df)
  /\ length (Values df) = length (Errors df)
  /\ 1 <= length (Names df)
  /\ forallb is_label (Names df) = true
  /\ labelled_numbers (Values df)
  /\ labelled_numbers (Errors df).

End Shapes.

(* ================================================================= *)
(** ** Basic facts on strings *)

Lemma str_eqb_eq (a b : str) : str_eqb a b = true <-> a = b.
Proof.
  unfold str_eqb. destruct (list_eq_dec ascii_dec a b); split; congruence.
Qed.

Lemma str_eqb_refl (a : str) : str_eqb a a = true.
Proof. now apply str_eqb_eq. Qed.

Lemma drop_while_idem p s : drop_while p (drop_while p s) = drop_while p s.
Proof.
  induction s as [|c s IH]; simpl; auto.
  destruct (p c) eqn:E; auto. simpl. now rewrite E.
Qed.

Lemma drop_while_snoc_keep p s c :
  p c = false -> drop_while p (s ++ [c]) = drop_while p s ++ [c].
Proof.
  intros Hc. induction s as [|x s IH]; simpl.
  - now rewrite Hc.
  - destruct (p x); auto.
Qed.

Lemma take_drop_while p s : take_while p s ++ drop_while p s = s.
Proof.
  induction s as [|c s IH]; simpl; auto.
  destruct (p c); simpl; congruence.
Qed.

Lemma take_while_all p s : forallb p (take_while p s) = true.
Proof.
  induction s as [|c s IH]; simpl; auto.
  destruct (p c) eqn:E; simpl; auto. now rewrite E.
Qed.

Lemma drop_while_head p s c r : drop_while p s = c :: r -> p c = false.
Proof.
  induction s as [|x s IH]; simpl; try discriminate.
  destruct (p x) eqn:E; auto. intros [= -> _]. exact E.
Qed.

Lemma drop_while_nil_iff p s : drop_while p s = [] <-> forallb p s = true.
Proof.
  induction s as [|x s IH]; simpl; [tauto|].
  destruct (p x); simpl; [exact IH|]. split; discriminate.
Qed.

Lemma rstrip_cons_keep c s :
  is_space c = false -> rstrip (c :: s) = c :: rstrip s.
Proof.
  intros Hc. unfold rstrip. simpl.
  rewrite drop_while_snoc_keep by exact Hc.
  now rewrite rev_app_distr.
Qed.

Lemma rstrip_idem s : rstrip (rstrip s) = rstrip s.
Proof.
  unfold rstrip. now rewrite rev_involutive, drop_while_idem.
Qed.

Lemma lstrip_rstrip_lstrip s : lstrip (rstrip (lstrip s)) = rstrip (lstrip s).
Proof.
  destruct (lstrip s) as [|c r] eqn:E; [reflexivity|].
  pose proof (drop_while_head _ _ E) as Hc.
  rewrite rstrip_cons_keep by exact Hc.
  unfold lstrip. simpl. now rewrite Hc.
Qed.

Lemma strip_idem s : strip (strip s) = strip s.
Proof.
  unfold strip. now rewrite lstrip_rstrip_lstrip, rstrip_idem.
Qed.

Lemma remove_blank_lines_cons line file_lines :
  remove_blank_lines (line :: file_lines) =
  if truthy (strip line) then strip line :: remove_blank_lines file_lines
  else remove_blank_lines file_lines.
Proof.
  unfold remove_blank_lines. simpl. now destruct (truthy (strip line)).
Qed.

(** **** C7 *)

(** C7: [remove_blank_lines] is idempotent: normalizing an already
    normalized list of lines gives the same list. *)
Theorem remove_blank_lines_idempotent (file_lines : list str) :
  remove_blank_lines (remove_blank_lines file_lines)
  = remove_blank_lines file_lines.
Proof.
  induction file_lines as [|line rest IH].
  - reflexivity.
  - rewrite remove_blank_lines_cons.
    destruct (truthy (strip line)) eqn:E; [|exact IH].
    rewrite remove_blank_lines_cons, strip_idem, E. now rewrite IH.
Qed.

(* ================================================================= *)
(** ** [split]: first and last token *)

Lemma truthy_rev (s : str) : truthy (rev s) = truthy s.
Proof.
  destruct s as [|c s]; [reflexivity|]. simpl.
  destruct (rev s); reflexivity.
Qed.

Lemma forallb_rev (p : ascii -> bool) s : forallb p (rev s) = forallb p s.
Proof.
  induction s as [|c s IH]; [reflexivity|]. simpl.
  rewrite forallb_app, IH. simpl. rewrite andb_true_r. apply andb_comm.
Qed.

Lemma nonblank_forallb s : nonblank s = negb (forallb is_space s).
Proof.
  unfold nonblank, not_space. induction s as [|c s IH]; [reflexivity|].
  simpl. rewrite IH. now destruct (is_space c).
Qed.

Lemma nonblank_rev s : nonblank (rev s) = nonblank s.
Proof. now rewrite !nonblank_forallb, forallb_rev. Qed.

Lemma nonblank_lstrip s :
  nonblank s = true ->
  exists c r, drop_while is_space s = c :: r /\ is_space c = false.
Proof.
  rewrite nonblank_forallb. intros H.
  destruct (drop_while is_space s) as [|c r] eqn:E.
  - apply drop_while_nil_iff in E. rewrite E in H. discriminate.
  - exists c, r. split; [reflexivity|]. exact (drop_while_head _ _ E).
Qed.

(** The run being read is completed by the non-whitespace characters that
    follow, and splitting goes on after them. *)
Lemma split_aux_run s : forall cur,
  split_aux cur s =
  (if truthy (rev cur ++ take_while not_space s)
   then [rev cur ++ take_while not_space s] else [])
  ++ split_aux [] (drop_while not_space s).
Proof.
  induction s as [|c s IH]; intros cur.
  - cbn [split_aux take_while drop_while].
    rewrite !app_nil_r, truthy_rev. now destruct (truthy cur).
  - cbn [split_aux take_while drop_while].
    assert (Hn : not_space c = negb (is_space c)) by reflexivity.
    rewrite !Hn. clear Hn.
    destruct (is_space c) eqn:E; cbn [negb].
    + rewrite !app_nil_r, truthy_rev. cbn [split_aux]. rewrite E.
      now destruct (truthy cur).
    + rewrite IH. cbn [rev]. now rewrite <- !app_assoc.
Qed.

Lemma split_lstrip s : split s = split (drop_while is_space s).
Proof.
  unfold split. induction s as [|c s IH]; [reflexivity|].
  simpl. destruct (is_space c) eqn:E; simpl; [exact IH|].
  now rewrite E.
Qed.

Lemma split_aux_word w : forall cur t,
  forallb not_space w = true ->
  split_aux cur (w ++ t) = split_aux (rev w ++ cur) t.
Proof.
  induction w as [|c w IH]; intros cur t H; [reflexivity|].
  simpl in H. apply andb_true_iff in H as [Hc Hw].
  unfold not_space in Hc. apply negb_true_iff in Hc.
  simpl. rewrite Hc, IH by exact Hw. now rewrite <- app_assoc.
Qed.

Lemma split_aux_spaces t : forall cur,
  forallb is_space t = true ->
  split_aux cur t = if truthy cur then [rev cur] else [].
Proof.
  induction t as [|c t IH]; intros cur H; [reflexivity|].
  simpl in H. apply andb_true_iff in H as [Hc Ht].
  simpl. rewrite Hc, (IH [] Ht). reflexivity.
Qed.

Lemma split_aux_app_space s : forall cur c t,
  is_space c = true ->
  split_aux cur (s ++ c :: t) = split_aux cur s ++ split_aux [] t.
Proof.
  induction s as [|x s IH]; intros cur c t Hc; simpl.
  - rewrite Hc. now destruct (truthy cur).
  - destruct (is_space x).
    + rewrite (IH [] c t Hc). now destruct (truthy cur).
    + now apply IH.
Qed.

Lemma split_blank s : nonblank s = false -> split s = [].
Proof.
  rewrite nonblank_forallb. intros H. apply negb_false_iff in H.
  unfold split. now rewrite split_aux_spaces.
Qed.

Lemma split_first s :
  nonblank s = true ->
  exists rest, split s = spec_first_token s :: rest.
Proof.
  intros H. destruct (nonblank_lstrip _ H) as (c & r & E & Hc).
  rewrite split_lstrip. unfold split, spec_first_token.
  rewrite split_aux_run, E. simpl. unfold not_space at 1 2. rewrite Hc. simpl.
  eexists. reflexivity.
Qed.

Lemma split_last s :
  nonblank s = true ->
  exists front, split s = front ++ [spec_last_token s].
Proof.
  intros H. rewrite <- nonblank_rev in H.
  destruct (nonblank_lstrip _ H) as (c & r & E & Hc).
  unfold spec_last_token.
  set (post := take_while is_space (rev s)).
  set (d := drop_while is_space (rev s)) in *.
  set (w := take_while not_space d).
  set (pre := drop_while not_space d).
  assert (Hs : s = rev pre ++ rev w ++ rev post).
  { rewrite <- (rev_involutive s) at 1.
    rewrite <- (take_drop_while is_space (rev s)). fold post d.
    rewrite <- (take_drop_while not_space d). fold w pre.
    now rewrite !rev_app_distr, app_assoc. }
  assert (Hw : forallb not_space (rev w) = true)
    by (rewrite forallb_rev; apply take_while_all).
  assert (Hpost : forallb is_space (rev post) = true)
    by (rewrite forallb_rev; apply take_while_all).
  assert (Hne : truthy (rev w) = true).
  { rewrite truthy_rev. unfold w. rewrite E. simpl.
    unfold not_space. now rewrite Hc. }
  assert (Hword : split_aux [] (rev w ++ rev post) = [rev w]).
  { rewrite split_aux_word by exact Hw.
    rewrite app_nil_r, split_aux_spaces by exact Hpost.
    rewrite truthy_rev, Hne. now rewrite rev_involutive. }
  destruct pre as [|x pre'] eqn:Epre.
  - exists []. rewrite Hs at 1. simpl. exact Hword.
  - assert (Hx : is_space x = true).
    { pose proof (drop_while_head not_space d Epre) as Hx.
      unfold not_space in Hx. now apply negb_false_iff in Hx. }
    exists (split (rev pre')). rewrite Hs at 1. simpl.
    rewrite <- app_assoc. simpl. unfold split.
    rewrite split_aux_app_space by exact Hx. now rewrite Hword.
Qed.

Lemma index_last_snoc {A} (l : list A) (x : A) : index_last (l ++ [x]) = Ok x.
Proof. unfold index_last. now rewrite rev_app_distr. Qed.

Lemma energy_of_value v :
  nonblank v = true -> index (split v) 0 = Ok (spec_first_token v).
Proof. intros H. destruct (split_first _ H) as [r ->]. reflexivity. Qed.

Lemma error_of_value v :
  nonblank v = true -> index_last (split v) = Ok (spec_last_token v).
Proof.
  intros H. destruct (split_last _ H) as [f ->]. apply index_last_snoc.
Qed.

Lemma energy_of_blank v :
  nonblank v = false -> index (split v) 0 = Raise IndexError.
Proof. intros H. now rewrite split_blank. Qed.

Lemma error_of_blank v :
  nonblank v = false -> index_last (split v) = Raise IndexError.
Proof. intros H. now rewrite split_blank. Qed.

(* ================================================================= *)
(** ** Comprehensions that may raise *)

Lemma mapR_ok_length {A B} (f : A -> result B) l ys :
  mapR f l = Ok ys -> length ys = length l.
Proof.
  revert ys. induction l as [|x l IH]; intros ys; simpl.
  - now intros [= <-].
  - destruct (f x); [|discriminate]. simpl.
    destruct (mapR f l) eqn:E; [|discriminate]. simpl.
    intros [= <-]. simpl. f_equal. now apply IH.
Qed.

Lemma mapR_total {A B} (f : A -> result B) (g : A -> B) l :
  Forall (fun x => f x = Ok (g x)) l -> mapR f l = Ok (map g l).
Proof.
  induction 1 as [|x l Hx _ IH]; [reflexivity|].
  simpl. now rewrite Hx, IH.
Qed.

Lemma mapR_raise {A B} (f : A -> result B) l x e :
  In x l -> f x = Raise e -> exists e', mapR f l = Raise e'.
Proof.
  induction l as [|y l IH]; intros Hin Hx; [contradiction|].
  simpl. destruct Hin as [->|Hin].
  - rewrite Hx. now exists e.
  - destruct (f y); simpl; [|eauto].
    destruct (IH Hin Hx) as [e' ->]. simpl. now exists e'.
Qed.

Lemma mapR_raise_kind {A B} (f : A -> result B) l e0 e :
  (forall x e', f x = Raise e' -> e' = e0) ->
  mapR f l = Raise e -> e = e0.
Proof.
  intros Hf. induction l as [|y l IH]; simpl; [discriminate|].
  destruct (f y) eqn:Ey; simpl.
  - destruct (mapR f l); simpl; [discriminate|].
    intros [= <-]. now apply IH.
  - intros [= <-]. eapply Hf, Ey.
Qed.

Lemma mapR_ok_all {A B} (f : A -> result B) l ys :
  mapR f l = Ok ys -> Forall2 (fun x y => f x = Ok y) l ys.
Proof.
  revert ys. induction l as [|x l IH]; intros ys; simpl.
  - intros [= <-]. constructor.
  - destruct (f x) eqn:Ex; [|discriminate]. simpl.
    destruct (mapR f l) eqn:E; [|discriminate]. simpl.
    intros [= <-]. constructor; auto.
Qed.

Lemma index_raise_kind {A} (l : list A) i e :
  index l i = Raise e -> e = IndexError.
Proof. unfold index. destruct (nth_error l i); congruence. Qed.

Lemma index_last_raise_kind {A} (l : list A) e :
  index_last l = Raise e -> e = IndexError.
Proof. unfold index_last. destruct (rev l); congruence. Qed.

(* ================================================================= *)
(** ** Extraction at an offset from a matching line

    [extract_tally_names] and [extract_tally_values] are the same
    comprehension with a different test and offset. *)

Lemma In_enumerate_from {A} (l : list A) : forall k i x,
  In (i, x) (enumerate_from k l) <->
  exists j, i = k + j /\ nth_error l j = Some x.
Proof.
  induction l as [|y l IH]; intros k i x; simpl.
  - split; [contradiction|]. intros (j & _ & H). now destruct j.
  - rewrite IH. split.
    + intros [[= <- <-]|(j & -> & H)].
      * exists 0. split; [lia|reflexivity].
      * exists (S j). split; [lia|exact H].
    + intros ([|j] & -> & H).
      * left. simpl in H. injection H as <-. f_equal. lia.
      * right. exists j. split; [lia|exact H].
Qed.

Lemma In_enumerate {A} (l : list A) i x :
  In (i, x) (enumerate l) <-> nth_error l i = Some x.
Proof.
  unfold enumerate. rewrite In_enumerate_from. split.
  - now intros (j & -> & H).
  - intros H. now exists i.
Qed.

Lemma filter_enumerate_length (test : str -> bool) l : forall k,
  length (filter (fun il => test (snd il)) (enumerate_from k l))
  = length (filter test l).
Proof.
  induction l as [|x l IH]; intros k; [reflexivity|].
  simpl. destruct (test x); simpl; now rewrite IH.
Qed.

Lemma extract_at_overrun test off file_lines i line :
  nth_error file_lines i = Some line ->
  test line = true ->
  length file_lines <= i + off ->
  extract_at test off file_lines = Raise IndexError.
Proof.
  intros Hi Ht Hlen. unfold extract_at.
  set (f := fun il : nat * str => index file_lines (fst il + off)).
  assert (Hin : In (i, line)
            (filter (fun il => test (snd il)) (enumerate file_lines))).
  { apply filter_In. split; [now apply In_enumerate|exact Ht]. }
  assert (Hf : f (i, line) = Raise IndexError).
  { unfold f, index. simpl.
    now rewrite (proj2 (nth_error_None file_lines (i + off)) Hlen). }
  destruct (mapR_raise f _ _ Hin Hf) as [e He].
  rewrite He. f_equal.
  eapply mapR_raise_kind; [|exact He].
  intros x e'. unfold f. apply index_raise_kind.
Qed.

Lemma extract_at_in_range test off file_lines :
  (forall i line, nth_error file_lines i = Some line -> test line = true ->
                  i + off < length file_lines) ->
  extract_at test off file_lines =
  Ok (map (fun il => nth (fst il + off) file_lines [])
          (filter (fun il => test (snd il)) (enumerate file_lines))).
Proof.
  intros H. unfold extract_at. apply mapR_total.
  apply Forall_forall. intros [i line] Hin.
  apply filter_In in Hin as [Hin Ht]. apply In_enumerate in Hin.
  simpl in *. unfold index.
  now rewrite (nth_error_nth' file_lines [] (H i line Hin Ht)).
Qed.

Lemma extract_at_raise_kind test off file_lines e :
  extract_at test off file_lines = Raise e -> e = IndexError.
Proof.
  unfold extract_at. apply mapR_raise_kind.
  intros x e'. apply index_raise_kind.
Qed.

Lemma extract_at_ok_length test off file_lines out :
  extract_at test off file_lines = Ok out ->
  length out = length (filter test file_lines).
Proof.
  intros H. apply mapR_ok_length in H. rewrite H.
  apply filter_enumerate_length.
Qed.

Lemma extract_tally_names_at file_lines :
  extract_tally_names file_lines = extract_at (contains $"tally") 2 file_lines.
Proof. reflexivity. Qed.

Lemma extract_tally_values_at file_lines :
  extract_tally_values file_lines
  = extract_at (fun line => str_eqb line $"vals") 1 file_lines.
Proof. reflexivity. Qed.

(** Every value line taken from a normalized sequence has a token. *)
Lemma strip_truthy_nonblank s : truthy (strip s) = true -> nonblank (strip s) = true.
Proof.
  unfold strip. intros H.
  destruct (lstrip s) as [|c r] eqn:E; [discriminate|].
  pose proof (drop_while_head _ _ E) as Hc.
  rewrite rstrip_cons_keep by exact Hc.
  unfold nonblank, not_space. simpl. now rewrite Hc.
Qed.

Lemma remove_blank_lines_nonblank raw_lines :
  Forall (fun line => nonblank line = true) (remove_blank_lines raw_lines).
Proof.
  unfold remove_blank_lines. apply Forall_forall. intros x Hin.
  apply in_map_iff in Hin as (y & <- & Hy).
  apply filter_In in Hy as [_ Hy]. now apply strip_truthy_nonblank.
Qed.

Lemma extract_at_sublist test off file_lines out (P : str -> Prop) :
  Forall P file_lines ->
  extract_at test off file_lines = Ok out -> Forall P out.
Proof.
  intros HP H. apply mapR_ok_all in H.
  induction H as [|il y l ys Hy _ IH]; constructor; auto.
  unfold index in Hy. destruct (nth_error file_lines (fst il + off)) eqn:E;
    [|discriminate].
  injection Hy as <-. rewrite Forall_forall in HP.
  eapply HP, nth_error_In, E.
Qed.

(* ================================================================= *)
(** ** The matcher against a declarative reading of the patterns *)

Lemma rep_sound p k s : forall lo hi acc m,
  rep p lo hi k acc s = Some m ->
  exists g rest gs,
    s = g ++ rest /\ forallb p g = true /\ lo <= length g
    /\ within (length g) hi /\ k rest = Some gs /\ m = (rev acc ++ g) :: gs.
Proof.
  assert (Hstop : forall lo hi acc t m,
    match lo with
    | 0 => option_map (cons (rev acc)) (k t)
    | S _ => None
    end = Some m ->
    exists g rest gs,
      t = g ++ rest /\ forallb p g = true /\ lo <= length g
      /\ within (length g) hi /\ k rest = Some gs /\ m = (rev acc ++ g) :: gs).
  { intros lo hi acc t m H. destruct lo; [|discriminate].
    destruct (k t) as [gs|] eqn:E; [|discriminate]. injection H as <-.
    exists [], t, gs. rewrite app_nil_r. repeat split; auto.
    destruct hi; simpl; lia. }
  induction s as [|c s IH]; intros lo hi acc m H.
  - simpl in H. now apply Hstop.
  - simpl in H. destruct (p c && more hi) eqn:E; [|now apply Hstop].
    destruct (rep p (pred lo) (option_map pred hi) k (c :: acc) s) as [m'|] eqn:R;
      [|now apply Hstop].
    injection H as <-. apply andb_true_iff in E as [Hc Hm].
    destruct (IH _ _ _ _ R) as (g & rest & gs & -> & Hg & Hlo & Hhi & Hk & ->).
    exists (c :: g), rest, gs. simpl. rewrite Hc, Hg.
    repeat split; auto; try lia.
    + destruct hi as [[|n]|]; simpl in *; try discriminate; lia.
    + now rewrite <- app_assoc.
Qed.

Lemma rep_complete p k g : forall lo hi acc rest,
  forallb p g = true -> lo <= length g -> within (length g) hi ->
  k rest <> None ->
  rep p lo hi k acc (g ++ rest) <> None.
Proof.
  induction g as [|c g IH]; intros lo hi acc rest Hg Hlo Hhi Hk.
  - simpl in Hlo. assert (lo = 0) by lia. subst lo.
    assert (Hstop : option_map (cons (rev acc)) (k rest) <> None)
      by (destruct (k rest); [discriminate|congruence]).
    destruct rest as [|c rest]; simpl; [exact Hstop|].
    destruct (p c && more hi); [|exact Hstop].
    destruct (rep p 0 (option_map pred hi) k (c :: acc) rest);
      [discriminate|exact Hstop].
  - simpl in Hg, Hlo. apply andb_true_iff in Hg as [Hc Hg].
    assert (Hm : more hi = true).
    { destruct hi as [[|n]|]; simpl in *; auto; lia. }
    simpl. rewrite Hc, Hm. simpl.
    assert (R : rep p (pred lo) (option_map pred hi) k (c :: acc) (g ++ rest)
                <> None).
    { apply IH; auto; [lia|]. destruct hi as [[|n]|]; simpl in *; auto; lia. }
    destruct (rep p (pred lo) (option_map pred hi) k (c :: acc) (g ++ rest));
      [discriminate|congruence].
Qed.

Lemma match_here_sound ic ps : forall s m,
  match_here ic ps s = Some m ->
  Forall2 (piece_ok ic) ps m /\ exists rest, s = concat m ++ rest.
Proof.
  induction ps as [|p ps IH]; intros s m H; simpl in H.
  - injection H as <-. split; [constructor|]. now exists s.
  - apply rep_sound in H
      as (g & rest & gs & -> & Hg & Hlo & Hhi & Hk & ->).
    destruct (IH _ _ Hk) as (HF & rest' & ->).
    split.
    + constructor; [|exact HF]. now repeat split.
    + exists rest'. simpl. now rewrite <- app_assoc.
Qed.

Lemma match_here_complete ic ps : forall gs rest,
  Forall2 (piece_ok ic) ps gs ->
  match_here ic ps (concat gs ++ rest) <> None.
Proof.
  induction ps as [|p ps IH]; intros gs rest HF; simpl.
  - discriminate.
  - inversion HF as [|p' g ps' gs' (Hg & Hlo & Hhi) HF']; subst.
    simpl. rewrite <- app_assoc. apply rep_complete; auto.
Qed.

(** [search] finds the leftmost position where the pattern matches. *)
Lemma search_sound ic ps s : forall m,
  search ic ps s = Some m ->
  exists pre rest,
    s = pre ++ concat m ++ rest /\ Forall2 (piece_ok ic) ps m
    /\ forall pre' gs' rest',
         s = pre' ++ concat gs' ++ rest' -> Forall2 (piece_ok ic) ps gs' ->
         length pre <= length pre'.
Proof.
  induction s as [|c s IH]; intros m H; simpl in H.
  - destruct (match_here ic ps []) eqn:E; [|discriminate]. injection H as <-.
    apply match_here_sound in E as (HF & rest & E).
    exists [], rest. repeat split; auto. simpl. lia.
  - destruct (match_here ic ps (c :: s)) eqn:E.
    + injection H as <-. apply match_here_sound in E as (HF & rest & E).
      exists [], rest. repeat split; auto. simpl. lia.
    + destruct (IH _ H) as (pre & rest & -> & HF & Hleft).
      exists (c :: pre), rest. repeat split; auto.
      intros [|c' pre'] gs' rest' Heq HF'.
      * exfalso. simpl in Heq. rewrite Heq in E.
        now apply (match_here_complete rest' HF').
      * simpl in Heq. injection Heq as _ Heq. simpl.
        apply le_n_S. eapply Hleft; eauto.
Qed.

Lemma search_complete ic ps gs rest : forall pre,
  Forall2 (piece_ok ic) ps gs ->
  search ic ps (pre ++ concat gs ++ rest) <> None.
Proof.
  intros pre HF. induction pre as [|c pre IH].
  - simpl. pose proof (match_here_complete rest HF) as H.
    destruct (concat gs ++ rest);
      simpl; destruct (match_here ic ps _); congruence.
  - simpl. destruct (match_here ic ps (c :: pre ++ concat gs ++ rest));
      [discriminate|exact IH].
Qed.

Lemma search_none ic ps s :
  search ic ps s = None ->
  forall pre gs rest,
    s = pre ++ concat gs ++ rest -> ~ Forall2 (piece_ok ic) ps gs.
Proof.
  intros H pre gs rest -> HF. now apply (search_complete rest pre HF).
Qed.

(* ================================================================= *)
(** ** The three patterns, read declaratively *)

Lemma lit_ci l c :
  In l $"mcnpx6" -> atom_matches true (Lit l) c = same_letter l c.
Proof.
  simpl. intros H.
  repeat (destruct H as [<-|H]; [destruct c as [[] [] [] [] [] [] [] []]; reflexivity|]).
  contradiction.
Qed.

Lemma once_ok ic a g :
  piece_ok ic (Piece a Once) g <->
  exists c, g = [c] /\ atom_matches ic a c = true.
Proof.
  unfold piece_ok. simpl. split.
  - intros (Hg & Hlo & Hhi). destruct g as [|c [|c' g]]; simpl in *; try lia.
    exists c. split; [reflexivity|]. now rewrite andb_true_r in Hg.
  - intros (c & -> & Hc). simpl. rewrite Hc. repeat split; auto.
Qed.

Ltac solve_letter :=
  apply once_ok; eexists; split;
  [reflexivity|rewrite lit_ci by (simpl; tauto); assumption].

Lemma search_mcnpx line :
  is_some (search true re_mcnpx line) = true <-> spec_has_mcnpx line.
Proof.
  split.
  - destruct (search true re_mcnpx line) as [m|] eqn:E; [intros _|discriminate].
    apply search_sound in E as (pre & rest & -> & HF & _).
    unfold re_mcnpx, lits in HF. simpl in HF.
    repeat match goal with
           | H : Forall2 _ (_ :: _) _ |- _ => inversion H; subst; clear H
           | H : Forall2 _ [] _ |- _ => inversion H; subst; clear H
           | H : piece_ok _ (Piece _ Once) _ |- _ =>
               apply once_ok in H as (? & -> & H);
               rewrite lit_ci in H by (simpl; tauto)
           end.
    match goal with
    | Hm : same_letter "m" ?a = true, Hc : same_letter "c" ?b = true,
      Hn : same_letter "n" ?c = true, Hp : same_letter "p" ?d = true,
      Hx : same_letter "x" ?e = true |- _ =>
        exists pre, [a; b; c; d; e], rest
    end.
    split; [reflexivity|]. repeat constructor; assumption.
  - intros (pre & mid & post & -> & H).
    unfold spec_ci_equal in H. simpl in H.
    repeat match goal with
           | H : Forall2 _ (_ :: _) _ |- _ => inversion H; subst; clear H
           | H : Forall2 _ [] _ |- _ => inversion H; subst; clear H
           end.
    match goal with
    | |- context [pre ++ [?a; ?b; ?c; ?d; ?e] ++ post] =>
        assert (HF : Forall2 (piece_ok true) re_mcnpx [[a]; [b]; [c]; [d]; [e]])
    end.
    { unfold re_mcnpx, lits. simpl.
      repeat (apply Forall2_cons; [solve_letter|]). constructor. }
    pose proof (search_complete post pre HF) as Hs. simpl in Hs.
    simpl. destruct (search true re_mcnpx _); [reflexivity|congruence].
Qed.

Lemma search_mcnp6 line :
  is_some (search true re_mcnp6 line) = true <-> spec_has_mcnp6 line.
Proof.
  split.
  - destruct (search true re_mcnp6 line) as [m|] eqn:E; [intros _|discriminate].
    apply search_sound in E as (pre & rest & -> & HF & _).
    unfold re_mcnp6, lits in HF. simpl in HF.
    repeat match goal with
           | H : Forall2 _ (_ :: _) _ |- _ => inversion H; subst; clear H
           | H : Forall2 _ [] _ |- _ => inversion H; subst; clear H
           | H : piece_ok _ (Piece _ Once) _ |- _ =>
               apply once_ok in H as (? & -> & H);
               rewrite lit_ci in H by (simpl; tauto)
           end.
    match goal with
    | H : same_letter "6" ?c = true |- _ =>
        assert (c = "6"%char)
          by (unfold same_letter in H; simpl in H; rewrite orb_false_r in H;
              now apply Ascii.eqb_eq in H);
        subst c; clear H
    end.
    match goal with
    | H : piece_ok _ (Piece AnySpace Plus) ?ws,
      Hm : same_letter "m" ?a = true, Hc : same_letter "c" ?b = true,
      Hn : same_letter "n" ?c = true, Hp : same_letter "p" ?d = true |- _ =>
        destruct H as (Hws & Hlen & _); simpl in Hws, Hlen;
        exists pre, [a; b; c; d], ws, rest
    end.
    repeat split.
    + simpl. now rewrite <- !app_assoc.
    + repeat constructor; assumption.
    + intros ->. simpl in Hlen. lia.
    + exact Hws.
  - intros (pre & mid & ws & post & -> & H & Hne & Hws).
    unfold spec_ci_equal in H. simpl in H.
    repeat match goal with
           | H : Forall2 _ (_ :: _) _ |- _ => inversion H; subst; clear H
           | H : Forall2 _ [] _ |- _ => inversion H; subst; clear H
           end.
    match goal with
    | |- context [pre ++ [?a; ?b; ?c; ?d] ++ _] =>
        assert (HF : Forall2 (piece_ok true) re_mcnp6
                       [[a]; [b]; [c]; [d]; ws; ["6"%char]])
    end.
    { unfold re_mcnp6, lits. simpl.
      repeat (apply Forall2_cons; [solve_letter|]).
      apply Forall2_cons.
      - unfold piece_ok. simpl. repeat split; auto.
        destruct ws; [congruence|simpl; lia].
      - apply Forall2_cons; [|constructor].
        apply once_ok. exists "6"%char. split; reflexivity. }
    pose proof (search_complete post pre HF) as Hs. simpl in Hs.
    rewrite <- app_assoc in Hs. simpl.
    destruct (search true re_mcnp6 _); [reflexivity|congruence].
Qed.

Lemma nps_pieces gs :
  Forall2 (piece_ok false) re_nps gs <->
  exists w1 ds w2,
    gs = [[w1]; ds; [w2]]
    /\ is_space w1 = true /\ is_space w2 = true
    /\ forallb is_digit ds = true /\ 8 <= length ds <= 11.
Proof.
  unfold re_nps. split.
  - intros HF.
    repeat match goal with
           | H : Forall2 _ (_ :: _) _ |- _ => inversion H; subst; clear H
           | H : Forall2 _ [] _ |- _ => inversion H; subst; clear H
           | H : piece_ok _ (Piece _ Once) _ |- _ =>
               apply once_ok in H as (? & -> & H); simpl in H
           end.
    match goal with
    | H : piece_ok _ (Piece AnyDigit _) ?ds |- _ =>
        destruct H as (Hd & Hlo & Hhi); simpl in Hd, Hlo, Hhi
    end.
    do 3 eexists. split; [reflexivity|]. repeat split; assumption.
  - intros (w1 & ds & w2 & -> & H1 & H2 & Hd & Hlo & Hhi).
    repeat apply Forall2_cons; try apply Forall2_nil.
    + apply once_ok. now exists w1.
    + unfold piece_ok. simpl. repeat split; assumption.
    + apply once_ok. now exists w2.
Qed.

Lemma nps_concat (w1 w2 : ascii) (ds rest : str) :
  concat [[w1]; ds; [w2]] ++ rest = w1 :: ds ++ w2 :: rest.
Proof. simpl. now rewrite <- app_assoc. Qed.

Lemma search_nps_some line m :
  search false re_nps line = Some m ->
  exists pre,
    spec_delimited_run line pre (group1 m)
    /\ forall pre' ds', spec_delimited_run line pre' ds' ->
                        length pre <= length pre'.
Proof.
  intros H. apply search_sound in H as (pre & rest & -> & HF & Hleft).
  apply nps_pieces in HF as (w1 & ds & w2 & -> & H1 & H2 & Hd & Hlen).
  exists pre. split.
  - exists w1, w2, rest. rewrite nps_concat. unfold group1. cbn [nth].
    repeat split; auto; lia.
  - intros pre' ds' (w1' & w2' & post' & Heq & H1' & H2' & Hd' & Hlen').
    apply (Hleft pre' [[w1']; ds'; [w2']] post').
    + now rewrite Heq, nps_concat.
    + apply nps_pieces. do 3 eexists. split; [reflexivity|].
      repeat split; auto; lia.
Qed.

Lemma search_nps_none line :
  search false re_nps line = None ->
  forall pre ds, ~ spec_delimited_run line pre ds.
Proof.
  intros H pre ds (w1 & w2 & post & Heq & H1 & H2 & Hd & Hlen).
  apply (@search_none _ _ _ H pre [[w1]; ds; [w2]] post).
  - now rewrite Heq, nps_concat.
  - apply nps_pieces. do 3 eexists. split; [reflexivity|].
    repeat split; auto; lia.
Qed.

(* ================================================================= *)
(** ** Version and particle count *)

(** **** C5 *)

(** C5: on a non-empty line sequence [extract_version] depends on the first
    line only; it returns [MCNPX] when that line contains [mcnpx] in any
    mix of cases, otherwise [MCNP6] when it contains [mcnp] followed by
    whitespace and [6], otherwise the sentinel [Version not found]; it
    never raises. *)
Theorem extract_version_first_line (first_line : str) (rest : list str) :
  extract_version (first_line :: rest) = extract_version [first_line]
  /\ (spec_has_mcnpx first_line ->
      extract_version (first_line :: rest) = Ok $"MCNPX")
  /\ (~ spec_has_mcnpx first_line -> spec_has_mcnp6 first_line ->
      extract_version (first_line :: rest) = Ok $"MCNP6")
  /\ (~ spec_has_mcnpx first_line -> ~ spec_has_mcnp6 first_line ->
      extract_version (first_line :: rest) = Ok $"Version not found")
  /\ (exists label, extract_version (first_line :: rest) = Ok label).
Proof.
  unfold extract_version. cbn [index nth_error rbind].
  pose proof (search_mcnpx first_line) as HX.
  pose proof (search_mcnp6 first_line) as H6.
  destruct (is_some (search true re_mcnpx first_line));
    destruct (is_some (search true re_mcnp6 first_line));
    repeat split; intros; eauto;
    try reflexivity;
    try (exfalso; tauto);
    try (exfalso;
         match goal with
         | H : spec_has_mcnpx _ |- _ => apply HX in H; discriminate
         | H : spec_has_mcnp6 _ |- _ => apply H6 in H; discriminate
         end).
Qed.

(** **** C2 *)

(** C2, as amended: on a non-empty line sequence [extract_particles]
    depends on the first line only.  When that line contains a whitespace
    character, then 8 to 11 digits, then a whitespace character, the
    result is [NPS: ] followed by the digits of the leftmost such run;
    when it contains no such run the result is [Particles not found]. *)
Theorem extract_particles_first_line (first_line : str) (rest : list str) :
  extract_particles (first_line :: rest) = extract_particles [first_line]
  /\ ((exists pre ds, spec_delimited_run first_line pre ds) ->
      exists pre ds,
        spec_delimited_run first_line pre ds
        /\ (forall pre' ds', spec_delimited_run first_line pre' ds' ->
                             length pre <= length pre')
        /\ extract_particles (first_line :: rest) = Ok ($"NPS: " ++ ds))
  /\ ((forall pre ds, ~ spec_delimited_run first_line pre ds) ->
      extract_particles (first_line :: rest) = Ok $"Particles not found").
Proof.
  unfold extract_particles. cbn [index nth_error rbind].
  destruct (search false re_nps first_line) as [m|] eqn:E.
  - apply search_nps_some in E as (pre & Hrun & Hleft).
    repeat split.
    + intros _. exists pre, (group1 m). auto.
    + intros Hno. exfalso. exact (Hno _ _ Hrun).
  - pose proof (search_nps_none E) as Hno.
    repeat split.
    intros (pre & ds & Hrun). exfalso. exact (Hno _ _ Hrun).
Qed.

(* ================================================================= *)
(** ** The table of one file and the run *)

Lemma In_insert_sorted x y l : In x (insert_sorted y l) <-> x = y \/ In x l.
Proof.
  induction l as [|z l IH]; simpl.
  - intuition congruence.
  - destruct (str_leb y z); simpl; rewrite ?IH; intuition congruence.
Qed.

Lemma In_sorted x l : In x (sorted l) <-> In x l.
Proof.
  unfold sorted. induction l as [|y l IH]; simpl; [tauto|].
  rewrite In_insert_sorted, IH. intuition congruence.
Qed.

Lemma In_mctal_files file names :
  In file (mctal_files_of names) <->
  In file names /\ endswith $".mctal" file = true.
Proof. unfold mctal_files_of. now rewrite In_sorted, filter_In. Qed.

Lemma blank_strip s : nonblank s = false -> strip s = [].
Proof.
  rewrite nonblank_forallb. intros H. apply negb_false_iff in H.
  unfold strip, lstrip. now rewrite (proj2 (drop_while_nil_iff _ _) H).
Qed.

Lemma remove_blank_lines_blank raw_lines :
  Forall (fun line => nonblank line = false) raw_lines ->
  remove_blank_lines raw_lines = [].
Proof.
  induction 1 as [|line rest Hb _ IH]; [reflexivity|].
  now rewrite remove_blank_lines_cons, (blank_strip _ Hb).
Qed.

Lemma extract_version_total line rest :
  exists label, extract_version (line :: rest) = Ok label.
Proof.
  unfold extract_version. cbn [index nth_error rbind].
  destruct (is_some _); [eauto|]. destruct (is_some _); eauto.
Qed.

Lemma extract_particles_total line rest :
  exists label, extract_particles (line :: rest) = Ok label.
Proof.
  unfold extract_particles. cbn [index nth_error rbind].
  destruct (search _ _ _); eauto.
Qed.

Section PipelineFacts.
Context `{FP : FloatParser}.

Lemma file_table_steps file raw_lines :
  file_table file raw_lines =
  (let file_lines := remove_blank_lines raw_lines in
   mcnp_version <- extract_version file_lines ;;
   particle_count <- extract_particles file_lines ;;
   tally_values <- extract_tally_values file_lines ;;
   tally_names <- extract_tally_names file_lines ;;
   energies <- float_energies tally_values ;;
   errors <- float_errors tally_values ;;
   new_DataFrame (CStr (fst (splitext file)) :: map CStr tally_names)
                 (CStr mcnp_version :: map CNum energies)
                 (CStr particle_count :: map CNum errors)).
Proof.
  unfold file_table, float_energies, float_errors. cbv zeta.
  destruct (extract_version _); [|reflexivity]. cbn [rbind].
  destruct (extract_particles _); [|reflexivity]. cbn [rbind].
  destruct (extract_tally_values _) as [vs|]; [|reflexivity]. cbn [rbind].
  destruct (extract_tally_names _); [|reflexivity]. cbn [rbind].
  destruct (extract_energies vs) as [es|]; [|reflexivity]. cbn [rbind].
  destruct (mapR to_float es); [|reflexivity]. cbn [rbind].
  destruct (extract_errors vs) as [rs|]; reflexivity.
Qed.

Lemma new_DataFrame_ok names values errors df :
  new_DataFrame names values errors = Ok df ->
  df = {| Names := names; Values := values; Errors := errors |}
  /\ length names = length values /\ length values = length errors.
Proof.
  unfold new_DataFrame.
  destruct (length names =? length values) eqn:E1; [|discriminate].
  destruct (length values =? length errors) eqn:E2; [|discriminate].
  simpl. intros [= <-].
  apply Nat.eqb_eq in E1. apply Nat.eqb_eq in E2. auto.
Qed.

Lemma new_DataFrame_unequal names values errors :
  length names <> length values \/ length values <> length errors ->
  new_DataFrame names values errors = Raise ValueError.
Proof.
  unfold new_DataFrame. intros [H|H]; apply Nat.eqb_neq in H; rewrite H.
  - reflexivity.
  - now rewrite andb_false_r.
Qed.

Lemma float_energies_length vs xs :
  float_energies vs = Ok xs -> length xs = length vs.
Proof.
  unfold float_energies. destruct (extract_energies vs) as [es|] eqn:E;
    [|discriminate].
  cbn [rbind]. intros H. apply mapR_ok_length in H, E. congruence.
Qed.

Lemma float_errors_length vs xs :
  float_errors vs = Ok xs -> length xs = length vs.
Proof.
  unfold float_errors. destruct (extract_errors vs) as [es|] eqn:E;
    [|discriminate].
  cbn [rbind]. intros H. apply mapR_ok_length in H, E. congruence.
Qed.

(** What a successful [file_table] went through. *)
Lemma file_table_ok file raw_lines df :
  file_table file raw_lines = Ok df ->
  exists version particles values names energies errors,
    extract_version (remove_blank_lines raw_lines) = Ok version
    /\ extract_particles (remove_blank_lines raw_lines) = Ok particles
    /\ extract_tally_values (remove_blank_lines raw_lines) = Ok values
    /\ extract_tally_names (remove_blank_lines raw_lines) = Ok names
    /\ float_energies values = Ok energies
    /\ float_errors values = Ok errors
    /\ df = {| Names := CStr (fst (splitext file)) :: map CStr names;
               Values := CStr version :: map CNum energies;
               Errors := CStr particles :: map CNum errors |}
    /\ length names = length energies
    /\ length energies = length errors.
Proof.
  rewrite file_table_steps. cbv zeta.
  destruct (extract_version _) as [version|]; [|discriminate]. cbn [rbind].
  destruct (extract_particles _) as [particles|]; [|discriminate]. cbn [rbind].
  destruct (extract_tally_values _) as [values|]; [|discriminate]. cbn [rbind].
  destruct (extract_tally_names _) as [names|]; [|discriminate]. cbn [rbind].
  destruct (float_energies values) as [energies|] eqn:Een; [|discriminate].
  cbn [rbind].
  destruct (float_errors values) as [errors|] eqn:Eer; [|discriminate].
  cbn [rbind]. intros H. apply new_DataFrame_ok in H as (-> & H1 & H2).
  simpl in H1, H2. rewrite !length_map in H1, H2.
  exists version, particles, values, names, energies, errors.
  repeat split; auto; lia.
Qed.

(** The run, unfolded: list, build every table in sorted order, export. *)
Lemma process_files_unfold directory_path w :
  process_files directory_path w =
  match listing w directory_path with
  | Raise e => (Raise e, w)
  | Ok names =>
      match mapR (load_table w directory_path) (mctal_files_of names) with
      | Raise e => (Raise e, w)
      | Ok tables =>
          to_excel tables (path_join directory_path $"tally_extractor.xlsx") w
      end
  end.
Proof.
  unfold process_files. unfold mbind at 1. unfold os_listdir.
  destruct (listing w directory_path) as [names|e]; [|reflexivity].
  unfold mbind at 1.
  match goal with
  | |- context [for_each _ ?b _ _] => set (body := b)
  end.
  assert (Hbody : forall acc file,
    body acc file w =
    (match load_table w directory_path file with
     | Ok df => Ok (acc ++ [df])
     | Raise e => Raise e
     end, w)).
  { intros acc file. unfold body, load_table.
    cbv [mbind open_readlines lift mret].
    destruct (lines_of w (path_join directory_path file)) as [raw|e];
      [|reflexivity].
    cbn [rbind]. destruct (file_table file raw); reflexivity. }
  clearbody body.
  assert (L : forall files acc,
    for_each files body acc w =
    (match mapR (load_table w directory_path) files with
     | Ok tables => Ok (acc ++ tables)
     | Raise e => Raise e
     end, w)).
  { induction files as [|file files IH]; intros acc.
    - simpl. unfold mret. now rewrite app_nil_r.
    - cbn [for_each mapR]. unfold mbind. rewrite Hbody.
      destruct (load_table w directory_path file) as [df|e]; [|reflexivity].
      cbn [rbind]. rewrite IH.
      destruct (mapR _ files); [|reflexivity].
      cbn [rbind]. now rewrite <- app_assoc. }
  rewrite L. destruct (mapR _ _); reflexivity.
Qed.

(** A file whose processing raises stops the run before the export: the
    run raises and leaves the world as it was. *)
Lemma process_files_aborts w directory_path names file e :
  listing w directory_path = Ok names ->
  In file names -> endswith $".mctal" file = true ->
  load_table w directory_path file = Raise e ->
  exists e', process_files directory_path w = (Raise e', w).
Proof.
  intros Hl Hin Hend Hload. rewrite process_files_unfold, Hl.
  assert (Hin' : In file (mctal_files_of names))
    by now apply In_mctal_files.
  destruct (mapR_raise _ _ _ Hin' Hload) as [e' ->]. now exists e'.
Qed.

Lemma load_table_read w directory_path file raw_lines :
  lines_of w (path_join directory_path file) = Ok raw_lines ->
  load_table w directory_path file = file_table file raw_lines.
Proof. unfold load_table. now intros ->. Qed.

End PipelineFacts.

(* ================================================================= *)
(** ** [splitext] on the names the run processes *)

Lemma rfind_none c s :
  forallb (fun x => negb (Ascii.eqb x c)) s = true -> rfind c s = None.
Proof.
  induction s as [|x s IH]; [reflexivity|]. simpl.
  intros H. apply andb_true_iff in H as [Hx Hs].
  rewrite (IH Hs). apply negb_true_iff in Hx. now rewrite Hx.
Qed.

Lemma rfind_app_last c s t :
  rfind c t = None -> rfind c (s ++ c :: t) = Some (length s).
Proof.
  intros Ht. induction s as [|x s IH]; simpl.
  - now rewrite Ht, Ascii.eqb_refl.
  - now rewrite IH.
Qed.

Lemma firstn_length_app {A} (s t : list A) : firstn (length s) (s ++ t) = s.
Proof. induction s; simpl; congruence. Qed.

Lemma skipn_length_app {A} (s t : list A) : skipn (length s) (s ++ t) = t.
Proof. induction s; simpl; congruence. Qed.

Lemma splitext_mctal stem :
  forallb (fun c => negb (Ascii.eqb c "/")) stem = true ->
  existsb (fun c => negb (Ascii.eqb c ".")) stem = true ->
  splitext (stem ++ $".mctal") = (stem, $".mctal").
Proof.
  intros Hsep Hdot. unfold splitext.
  assert (Hs : rfind "/" (stem ++ $".mctal") = None).
  { apply rfind_none. rewrite forallb_app, Hsep. reflexivity. }
  assert (Hd : rfind "." (stem ++ $".mctal") = Some (length stem))
    by (apply (rfind_app_last "." stem $"mctal"); reflexivity).
  rewrite Hs, Hd. cbn [idx].
  replace (-1 + 1)%Z with 0%Z by reflexivity.
  unfold slice. rewrite Z.sub_0_r, Nat2Z.id. cbn [Z.to_nat skipn].
  rewrite firstn_length_app, skipn_length_app, Hdot.
  replace (-1 <? Z.of_nat (length stem))%Z with true; [reflexivity|].
  symmetry. apply Z.ltb_lt. lia.
Qed.

(* ================================================================= *)
(** ** Value lines *)

Lemma extract_energies_tokens vs :
  Forall (fun v => nonblank v = true) vs ->
  extract_energies vs = Ok (map spec_first_token vs).
Proof.
  intros H. apply mapR_total. eapply Forall_impl; [|exact H].
  intros v Hv. now apply energy_of_value.
Qed.

Lemma extract_errors_tokens vs :
  Forall (fun v => nonblank v = true) vs ->
  extract_errors vs = Ok (map spec_last_token vs).
Proof.
  intros H. apply mapR_total. eapply Forall_impl; [|exact H].
  intros v Hv. now apply error_of_value.
Qed.

Lemma values_of_normalized raw_lines values :
  extract_tally_values (remove_blank_lines raw_lines) = Ok values ->
  Forall (fun v => nonblank v = true) values.
Proof.
  rewrite extract_tally_values_at. apply extract_at_sublist.
  apply remove_blank_lines_nonblank.
Qed.

(** **** C8 *)

(** C8, as amended: for every list of tally-value strings that each hold
    at least one non-whitespace character, [extract_energies] and
    [extract_errors] return sequences of the length of the input; and
    whenever either returns at all, its result has that length. *)
Theorem extract_lengths_nonblank (tally_values : list str)
    (H : Forall (fun v => nonblank v = true) tally_values) :
  (exists energies errors,
     extract_energies tally_values = Ok energies
     /\ extract_errors tally_values = Ok errors
     /\ length energies = length tally_values
     /\ length errors = length tally_values)
  /\ (forall vs out, extract_energies vs = Ok out -> length out = length vs)
  /\ (forall vs out, extract_errors vs = Ok out -> length out = length vs).
Proof.
  split; [|split].
  - exists (map spec_first_token tally_values),
           (map spec_last_token tally_values).
    rewrite extract_energies_tokens, extract_errors_tokens by exact H.
    now rewrite !length_map.
  - intros vs out. apply mapR_ok_length.
  - intros vs out. apply mapR_ok_length.
Qed.

Section Claims.
Context `{FP : FloatParser}.

(** **** C1 *)

(** C1: for value lines that each hold at least one token,
    [extract_energies] yields the first whitespace-delimited token of
    every line and [extract_errors] the last one; these tokens are what
    [float] is applied to for the Values and Errors columns; and a line
    with exactly one token gives that token as energy and as error. *)
Theorem value_block_tokens (tally_values : list str)
    (H : Forall (fun v => nonblank v = true) tally_values) :
  extract_energies tally_values = Ok (map spec_first_token tally_values)
  /\ extract_errors tally_values = Ok (map spec_last_token tally_values)
  /\ float_energies tally_values
     = mapR to_float (map spec_first_token tally_values)
  /\ float_errors tally_values
     = mapR to_float (map spec_last_token tally_values)
  /\ (forall file raw_lines df,
        file_table file raw_lines = Ok df ->
        extract_tally_values (remove_blank_lines raw_lines) = Ok tally_values ->
        exists energies errors,
          mapR to_float (map spec_first_token tally_values) = Ok energies
          /\ mapR to_float (map spec_last_token tally_values) = Ok errors
          /\ tl (Values df) = map CNum energies
          /\ tl (Errors df) = map CNum errors)
  /\ (forall v t, In v tally_values -> split v = [t] ->
        spec_first_token v = t /\ spec_last_token v = t
        /\ extract_energies [v] = Ok [t] /\ extract_errors [v] = Ok [t]).
Proof.
  pose proof (extract_energies_tokens H) as He.
  pose proof (extract_errors_tokens H) as Hr.
  assert (Hfe : float_energies tally_values
                = mapR to_float (map spec_first_token tally_values))
    by (unfold float_energies; now rewrite He).
  assert (Hfr : float_errors tally_values
                = mapR to_float (map spec_last_token tally_values))
    by (unfold float_errors; now rewrite Hr).
  split; [exact He|]. split; [exact Hr|].
  split; [exact Hfe|]. split; [exact Hfr|]. split.
  - intros file raw_lines df Hdf Hv.
    apply file_table_ok in Hdf
      as (version & particles & values & names & energies & errors
          & _ & _ & Hv' & _ & Hen & Her & -> & _).
    rewrite Hv in Hv'. injection Hv' as <-.
    exists energies, errors. rewrite <- Hfe, <- Hfr. auto.
  - intros v t Hin Ht.
    rewrite Forall_forall in H. specialize (H v Hin).
    split; [|split; [|split]].
    + destruct (split_first _ H) as [r E]. rewrite Ht in E. congruence.
    + destruct (split_last _ H) as [f E]. rewrite Ht in E.
      destruct f as [|a [|b f]]; simpl in E; congruence.
    + unfold extract_energies. simpl. now rewrite Ht.
    + unfold extract_errors. simpl. now rewrite Ht.
Qed.

(** **** C3 *)

(** C3: a line containing [tally] with fewer than two lines after it
    makes [extract_tally_names] raise [IndexError], and a last line equal
    to [vals] makes [extract_tally_values] raise [IndexError]; the table of
    such a file is not built, the run raises and writes nothing.  When
    every match has the lines it needs, each extraction returns one entry
    per match, the line at the offset. *)
Theorem short_match_out_of_range (file_lines : list str) :
  (forall i line,
     nth_error file_lines i = Some line -> contains $"tally" line = true ->
     length file_lines <= i + 2 ->
     extract_tally_names file_lines = Raise IndexError)
  /\ (forall i,
     nth_error file_lines i = Some $"vals" -> length file_lines <= i + 1 ->
     extract_tally_values file_lines = Raise IndexError)
  /\ (forall i line,
     nth_error file_lines i = Some line ->
     (contains $"tally" line = true /\ length file_lines <= i + 2)
     \/ (line = $"vals" /\ length file_lines <= i + 1) ->
     forall file raw_lines,
       remove_blank_lines raw_lines = file_lines ->
       file_table file raw_lines = Raise IndexError
       /\ forall w directory_path names,
            listing w directory_path = Ok names ->
            In file names -> endswith $".mctal" file = true ->
            lines_of w (path_join directory_path file) = Ok raw_lines ->
            exists e, process_files directory_path w = (Raise e, w))
  /\ ((forall i line,
         nth_error file_lines i = Some line -> contains $"tally" line = true ->
         i + 2 < length file_lines) ->
      exists names,
        extract_tally_names file_lines = Ok names
        /\ length names = count_tally file_lines
        /\ names = map (fun il => nth (fst il + 2) file_lines [])
                       (filter (fun il => contains $"tally" (snd il))
                               (enumerate file_lines)))
  /\ ((forall i,
         nth_error file_lines i = Some $"vals" -> i + 1 < length file_lines) ->
      exists values,
        extract_tally_values file_lines = Ok values
        /\ length values = count_vals file_lines
        /\ values = map (fun il => nth (fst il + 1) file_lines [])
                        (filter (fun il => str_eqb (snd il) $"vals")
                                (enumerate file_lines))).
Proof.
  assert (Hn : forall i line,
     nth_error file_lines i = Some line -> contains $"tally" line = true ->
     length file_lines <= i + 2 ->
     extract_tally_names file_lines = Raise IndexError).
  { intros i line Hi Ht Hlen. rewrite extract_tally_names_at.
    eapply extract_at_overrun; eauto. }
  assert (Hv : forall i,
     nth_error file_lines i = Some $"vals" -> length file_lines <= i + 1 ->
     extract_tally_values file_lines = Raise IndexError).
  { intros i Hi Hlen. rewrite extract_tally_values_at.
    eapply extract_at_overrun; eauto. }
  split; [exact Hn|]. split; [exact Hv|]. split; [|split].
  - intros i line Hi Hbad file raw_lines Hraw.
    assert (Htab : file_table file raw_lines = Raise IndexError).
    { rewrite file_table_steps, Hraw. cbv zeta.
      destruct file_lines as [|first rest]; [now destruct i|].
      destruct (extract_version_total first rest) as [v ->].
      destruct (extract_particles_total first rest) as [p ->].
      cbn [rbind].
      destruct (extract_tally_values (first :: rest)) as [vals|e] eqn:Ev.
      - cbn [rbind]. destruct Hbad as [[Ht Hlen]|[-> Hlen]].
        + now rewrite (Hn i line Hi Ht Hlen).
        + discriminate (Hv i Hi Hlen).
      - cbn [rbind]. f_equal.
        rewrite extract_tally_values_at in Ev.
        now apply extract_at_raise_kind in Ev. }
    split; [exact Htab|].
    intros w directory_path names Hl Hin Hend Hread.
    apply (@process_files_aborts _ w directory_path names file IndexError);
      auto.
    unfold load_table. rewrite Hread. exact Htab.
  - intros Hok. eexists. rewrite extract_tally_names_at.
    rewrite (extract_at_in_range _ _ _ Hok). split; [reflexivity|].
    split; [|reflexivity].
    rewrite length_map. apply filter_enumerate_length.
  - intros Hok. eexists. rewrite extract_tally_values_at.
    rewrite extract_at_in_range.
    + split; [reflexivity|]. split; [|reflexivity].
      rewrite length_map.
      apply (filter_enumerate_length (fun line => str_eqb line $"vals")).
    + intros i line Hi Ht. apply str_eqb_eq in Ht. subst line. now apply Hok.
Qed.

(** **** C4 *)

(** C4: the table of a successfully processed file starts, in Names, with
    the file name without its extension, in Values with the version label
    and in Errors with the particle-count label, and has one row more than
    there are tally names. *)
Theorem per_file_table_header_and_rows (file : str) (raw_lines : list str)
    (df : DataFrame) (H : file_table file raw_lines = Ok df) :
  exists version particles names,
    extract_version (remove_blank_lines raw_lines) = Ok version
    /\ extract_particles (remove_blank_lines raw_lines) = Ok particles
    /\ extract_tally_names (remove_blank_lines raw_lines) = Ok names
    /\ hd_error (Names df) = Some (CStr (fst (splitext file)))
    /\ tl (Names df) = map CStr names
    /\ hd_error (Values df) = Some (CStr version)
    /\ hd_error (Errors df) = Some (CStr particles)
    /\ nrows df = 1 + length names
    /\ length (Values df) = nrows df
    /\ length (Errors df) = nrows df
    /\ (forall stem,
          file = stem ++ $".mctal" ->
          forallb (fun c => negb (Ascii.eqb c "/")) stem = true ->
          existsb (fun c => negb (Ascii.eqb c ".")) stem = true ->
          fst (splitext file) = stem).
Proof.
  apply file_table_ok in H
    as (version & particles & values & names & energies & errors
        & Hv & Hp & _ & Hn & _ & _ & -> & Hl1 & Hl2).
  exists version, particles, names. unfold nrows. simpl.
  rewrite !length_map.
  repeat (split; [first [assumption | reflexivity | lia]|]).
  intros stem -> Hsep Hdot. now rewrite splitext_mctal.
Qed.

(** **** C6 *)

(** C6: when processing one of the [.mctal] files of the directory raises
    (whatever the exception), the run raises before the export: the world
    is left as it was, so [tally_extractor.xlsx] is not written and the
    tables built for the files before are lost. *)
Theorem failed_file_aborts_batch (w : world) (directory_path : str)
    (names : list str) (file : str) (e : exn)
    (Hlist : listing w directory_path = Ok names)
    (Hin : In file names)
    (Hext : endswith $".mctal" file = true)
    (Hfail : load_table w directory_path file = Raise e) :
  exists e',
    process_files directory_path w = (Raise e', w)
    /\ workbook (snd (process_files directory_path w))
                (path_join directory_path $"tally_extractor.xlsx")
       = workbook w (path_join directory_path $"tally_extractor.xlsx").
Proof.
  destruct (process_files_aborts w directory_path file Hlist Hin Hext Hfail)
    as [e' He'].
  exists e'. split; [exact He'|]. now rewrite He'.
Qed.

(** **** C9 *)

(** C9: when the number of normalized lines containing [tally] differs
    from the number of lines equal to [vals], the table of the file is not
    built: if every extraction and conversion step succeeds, the three
    columns have unequal lengths and the table constructor raises; the run
    raises and writes nothing.  A table is built only when the two counts
    are equal. *)
Theorem count_mismatch_fails (file : str) (raw_lines : list str)
    (H : count_tally (remove_blank_lines raw_lines)
         <> count_vals (remove_blank_lines raw_lines)) :
  (exists e, file_table file raw_lines = Raise e)
  /\ (forall version particles values names energies errors,
        extract_version (remove_blank_lines raw_lines) = Ok version ->
        extract_particles (remove_blank_lines raw_lines) = Ok particles ->
        extract_tally_values (remove_blank_lines raw_lines) = Ok values ->
        extract_tally_names (remove_blank_lines raw_lines) = Ok names ->
        float_energies values = Ok energies ->
        float_errors values = Ok errors ->
        length (CStr (fst (splitext file)) :: map CStr names)
        <> length (CStr version :: map CNum energies)
        /\ new_DataFrame (CStr (fst (splitext file)) :: map CStr names)
                         (CStr version :: map CNum energies)
                         (CStr particles :: map CNum errors)
           = Raise ValueError
        /\ file_table file raw_lines = Raise ValueError)
  /\ (forall w directory_path names,
        listing w directory_path = Ok names ->
        In file names -> endswith $".mctal" file = true ->
        lines_of w (path_join directory_path file) = Ok raw_lines ->
        exists e, process_files directory_path w = (Raise e, w))
  /\ (forall file' raw_lines' df,
        file_table file' raw_lines' = Ok df ->
        count_tally (remove_blank_lines raw_lines')
        = count_vals (remove_blank_lines raw_lines')).
Proof.
  assert (Hbuilt : forall file' raw_lines' df,
        file_table file' raw_lines' = Ok df ->
        count_tally (remove_blank_lines raw_lines')
        = count_vals (remove_blank_lines raw_lines')).
  { intros file' raw' df Hdf.
    apply file_table_ok in Hdf
      as (version & particles & values & names & energies & errors
          & _ & _ & Hv & Hn & Hen & _ & _ & Hl1 & _).
    rewrite extract_tally_names_at in Hn.
    rewrite extract_tally_values_at in Hv.
    apply extract_at_ok_length in Hn, Hv.
    apply float_energies_length in Hen.
    unfold count_tally, count_vals. congruence. }
  assert (Hfail : exists e, file_table file raw_lines = Raise e).
  { destruct (file_table file raw_lines) as [df|e] eqn:E; [|now exists e].
    exfalso. exact (H (Hbuilt _ _ _ E)). }
  split; [exact Hfail|]. split; [|split; [|exact Hbuilt]].
  - intros version particles values names energies errors
           Hv Hp Hvals Hn Hen Her.
    assert (Hlen : length (CStr (fst (splitext file)) :: map CStr names)
                   <> length (CStr version :: map CNum energies)).
    { simpl. rewrite !length_map.
      rewrite extract_tally_names_at in Hn.
      rewrite extract_tally_values_at in Hvals.
      apply extract_at_ok_length in Hn, Hvals.
      apply float_energies_length in Hen.
      unfold count_tally, count_vals in H. congruence. }
    assert (Hnew : new_DataFrame (CStr (fst (splitext file)) :: map CStr names)
                     (CStr version :: map CNum energies)
                     (CStr particles :: map CNum errors) = Raise ValueError)
      by (apply new_DataFrame_unequal; now left).
    split; [exact Hlen|]. split; [exact Hnew|].
    rewrite file_table_steps. cbv zeta.
    rewrite Hv, Hp, Hvals, Hn. cbn [rbind]. rewrite Hen, Her. exact Hnew.
  - intros w directory_path names Hl Hin Hend Hread.
    destruct Hfail as [e He].
    apply (@process_files_aborts _ w directory_path names file e); auto.
    unfold load_table. rewrite Hread. exact He.
Qed.

(** **** C10 *)

(** C10: for a file whose lines are all empty or whitespace-only, the
    normalized sequence is empty; [extract_version] and
    [extract_particles] raise [IndexError] on it instead of returning
    their sentinels, no table is built, and the run raises and writes
    nothing. *)
Theorem blank_file_out_of_range (file : str) (raw_lines : list str)
    (H : Forall (fun line => nonblank line = false) raw_lines) :
  remove_blank_lines raw_lines = []
  /\ extract_version (remove_blank_lines raw_lines) = Raise IndexError
  /\ extract_particles (remove_blank_lines raw_lines) = Raise IndexError
  /\ extract_version (remove_blank_lines raw_lines)
     <> Ok $"Version not found"
  /\ extract_particles (remove_blank_lines raw_lines)
     <> Ok $"Particles not found"
  /\ file_table file raw_lines = Raise IndexError
  /\ (forall w directory_path names,
        listing w directory_path = Ok names ->
        In file names -> endswith $".mctal" file = true ->
        lines_of w (path_join directory_path file) = Ok raw_lines ->
        exists e, process_files directory_path w = (Raise e, w)).
Proof.
  pose proof (remove_blank_lines_blank H) as E.
  assert (Htab : file_table file raw_lines = Raise IndexError)
    by (rewrite file_table_steps; cbv zeta; now rewrite E).
  rewrite E. repeat (split; [first [reflexivity | discriminate | exact Htab]|]).
  intros w directory_path names Hl Hin Hend Hread.
  apply (@process_files_aborts _ w directory_path names file IndexError); auto.
  unfold load_table. rewrite Hread. exact Htab.
Qed.

(** A run in which every file is processed writes the tables, in sorted
    file order, to [tally_extractor.xlsx] in the directory. *)
Lemma process_files_exports (w : world) (directory_path : str)
    (names : list str) (tables : Report) :
  listing w directory_path = Ok names ->
  mapR (load_table w directory_path) (mctal_files_of names) = Ok tables ->
  fst (process_files directory_path w) = Ok tt
  /\ workbook (snd (process_files directory_path w))
              (path_join directory_path $"tally_extractor.xlsx")
     = Some tables.
Proof.
  intros Hl Hm. rewrite process_files_unfold, Hl, Hm.
  unfold to_excel. simpl. now rewrite str_eqb_refl.
Qed.

End Claims.

(* ================================================================= *)
(** ** The properties on the sample directory *)

Lemma value_block_tokens_witness :
  Forall (fun v => nonblank v = true) [ $" 1.0 2.0 0.05"; $"7.5" ]
  /\ extract_energies [ $" 1.0 2.0 0.05"; $"7.5" ] = Ok [ $"1.0"; $"7.5" ]
  /\ extract_errors [ $" 1.0 2.0 0.05"; $"7.5" ] = Ok [ $"0.05"; $"7.5" ]
  /\ float_energies (FP := DecimalParser) [ $" 1.0 2.0 0.05"; $"7.5" ]
     = Ok [ (10%N, 1); (75%N, 1) ].
Proof.
  assert (H : Forall (fun v => nonblank v = true) [ $" 1.0 2.0 0.05"; $"7.5" ])
    by (repeat constructor).
  destruct (value_block_tokens (FP := DecimalParser) H)
    as (He & Hr & Hfe & _).
  split; [exact H|]. split; [exact He|]. split; [exact Hr|].
  rewrite Hfe. reflexivity.
Defined.

Lemma extract_particles_first_line_witness :
  (exists pre ds,
     spec_delimited_run $"mcnp 6 12345678 99" pre ds)
  /\ (exists pre ds,
        spec_delimited_run $"mcnp 6 12345678 99" pre ds
        /\ extract_particles [ $"mcnp 6 12345678 99"; $"tally 4" ]
           = Ok ($"NPS: " ++ ds))
  /\ extract_particles [ $"mcnp 6 12345678 99"; $"tally 4" ]
     = Ok $"NPS: 12345678"
  /\ (forall pre ds, ~ spec_delimited_run $"mcnp 6 1234567 99" pre ds)
  /\ extract_particles [ $"mcnp 6 1234567 99"; $"tally 4" ]
     = Ok $"Particles not found".
Proof.
  assert (H : exists pre ds, spec_delimited_run $"mcnp 6 12345678 99" pre ds).
  { exists $"mcnp 6", $"12345678", " "%char, " "%char, $"99".
    repeat split; simpl; lia. }
  assert (H7 : forall pre ds, ~ spec_delimited_run $"mcnp 6 1234567 99" pre ds)
    by (apply search_nps_none; reflexivity).
  destruct (extract_particles_first_line $"mcnp 6 12345678 99" [ $"tally 4" ])
    as (_ & Hrun & _).
  destruct (extract_particles_first_line $"mcnp 6 1234567 99" [ $"tally 4" ])
    as (_ & _ & Hnone).
  destruct (Hrun H) as (pre & ds & Hd & _ & Hres).
  split; [exact H|]. split; [|split; [reflexivity|]].
  - exists pre, ds. split; [exact Hd|exact Hres].
  - split; [exact H7|exact (Hnone H7)].
Defined.

(** The claim read on tokens fails: a digit token that ends (or is) the
    stripped first line has no whitespace character after it, and is not
    found. *)
Lemma particles_token_at_line_end_missed :
  normalized [ $"mcnp 6 01/01/24 12345678" ]
  /\ spec_digit_token $"mcnp 6 01/01/24 12345678" = true
  /\ extract_particles [ $"mcnp 6 01/01/24 12345678" ]
     = Ok $"Particles not found"
  /\ normalized [ $"12345678" ]
  /\ spec_digit_token $"12345678" = true
  /\ extract_particles [ $"12345678" ] = Ok $"Particles not found"
  /\ ~ (forall file_lines,
          file_lines <> [] -> normalized file_lines ->
          spec_digit_token (hd [] file_lines) = true ->
          exists ds, extract_particles file_lines = Ok ($"NPS: " ++ ds)).
Proof.
  repeat (split; [reflexivity|]).
  intros Hclaim.
  destruct (Hclaim [ $"12345678" ]) as [ds Hds];
    [discriminate|reflexivity|reflexivity|].
  vm_compute in Hds. discriminate.
Qed.

Lemma extract_version_first_line_witness :
  spec_has_mcnpx $"MCnpX   ver 2.7"
  /\ extract_version [ $"MCnpX   ver 2.7"; $"tally 4" ] = Ok $"MCNPX"
  /\ ~ spec_has_mcnpx $"mcnp   6  x"
  /\ spec_has_mcnp6 $"mcnp   6  x"
  /\ extract_version [ $"mcnp   6  x" ] = Ok $"MCNP6"
  /\ ~ spec_has_mcnp6 $"mcnp6"
  /\ extract_version [ $"mcnp6" ] = Ok $"Version not found".
Proof.
  assert (HX : spec_has_mcnpx $"MCnpX   ver 2.7").
  { exists [], $"MCnpX", $"   ver 2.7". split; [reflexivity|].
    repeat constructor. }
  assert (HnX : ~ spec_has_mcnpx $"mcnp   6  x")
    by (intros H; apply search_mcnpx in H; discriminate).
  assert (H6 : spec_has_mcnp6 $"mcnp   6  x").
  { exists [], $"mcnp", $"   ", $"  x". split; [reflexivity|].
    split; [repeat constructor|]. split; [discriminate|reflexivity]. }
  assert (HnX' : ~ spec_has_mcnpx $"mcnp6")
    by (intros H; apply search_mcnpx in H; discriminate).
  assert (Hn6 : ~ spec_has_mcnp6 $"mcnp6")
    by (intros H; apply search_mcnp6 in H; discriminate).
  split; [exact HX|]. split.
  { exact (proj1 (proj2 (extract_version_first_line _ [ $"tally 4" ])) HX). }
  split; [exact HnX|]. split; [exact H6|]. split.
  { exact (proj1 (proj2 (proj2 (extract_version_first_line _ []))) HnX H6). }
  split; [exact Hn6|].
  exact (proj1 (proj2 (proj2 (proj2 (extract_version_first_line _ []))))
               HnX' Hn6).
Defined.

Lemma extract_lengths_nonblank_witness :
  Forall (fun v => nonblank v = true) [ $"1.0 2.0 0.05"; $"3.5 0.1" ]
  /\ exists energies errors,
       extract_energies [ $"1.0 2.0 0.05"; $"3.5 0.1" ] = Ok energies
       /\ extract_errors [ $"1.0 2.0 0.05"; $"3.5 0.1" ] = Ok errors
       /\ length energies = 2 /\ length errors = 2.
Proof.
  assert (H : Forall (fun v => nonblank v = true)
                     [ $"1.0 2.0 0.05"; $"3.5 0.1" ])
    by (repeat constructor).
  split; [exact H|]. exact (proj1 (extract_lengths_nonblank H)).
Defined.

(** A list holding an empty value line: nothing is returned. *)
Lemma extract_lengths_blank_value :
  extract_energies [ $"" ] = Raise IndexError
  /\ extract_errors [ $"" ] = Raise IndexError
  /\ ~ (exists energies,
          extract_energies [ $"" ] = Ok energies
          /\ length energies = length [ $"" ])
  /\ ~ (exists errors,
          extract_errors [ $"" ] = Ok errors
          /\ length errors = length [ $"" ]).
Proof.
  split; [reflexivity|]. split; [reflexivity|].
  split; intros (out & H & _); discriminate.
Qed.

Lemma short_match_out_of_range_witness :
  (nth_error sample_short 1 = Some $"vals"
   /\ length sample_short <= 1 + 1
   /\ remove_blank_lines sample_short = sample_short
   /\ extract_tally_values sample_short = Raise IndexError
   /\ file_table (FP := DecimalParser) $"short.mctal" sample_short
      = Raise IndexError
   /\ exists e,
        process_files $"runs"
          (sample_world [ $"good.mctal"; $"short.mctal" ])
        = (Raise e, sample_world [ $"good.mctal"; $"short.mctal" ]))
  /\ (nth_error [ $"tally 4"; $"f 0" ] 0 = Some $"tally 4"
      /\ contains $"tally" $"tally 4" = true
      /\ extract_tally_names [ $"tally 4"; $"f 0" ] = Raise IndexError)
  /\ ((forall i line,
         nth_error (remove_blank_lines sample_good) i = Some line ->
         contains $"tally" line = true ->
         i + 2 < length (remove_blank_lines sample_good))
      /\ exists names,
           extract_tally_names (remove_blank_lines sample_good) = Ok names
           /\ length names = 1).
Proof.
  destruct (short_match_out_of_range (FP := DecimalParser) sample_short)
    as (_ & Hvals & Hrun & _).
  destruct (short_match_out_of_range (FP := DecimalParser)
              [ $"tally 4"; $"f 0" ]) as (Hnames & _).
  destruct (short_match_out_of_range (FP := DecimalParser)
              (remove_blank_lines sample_good)) as (_ & _ & _ & Hok & _).
  assert (Hi : nth_error sample_short 1 = Some $"vals") by reflexivity.
  assert (Hlen : length sample_short <= 1 + 1) by (simpl; lia).
  assert (Hraw : remove_blank_lines sample_short = sample_short)
    by reflexivity.
  destruct (Hrun 1 $"vals" Hi (or_intror (conj eq_refl Hlen))
                 $"short.mctal" sample_short Hraw) as (Htab & Hw).
  split; [|split].
  - split; [exact Hi|]. split; [exact Hlen|]. split; [exact Hraw|].
    split; [exact (Hvals 1 Hi Hlen)|]. split; [exact Htab|].
    apply (Hw (sample_world [ $"good.mctal"; $"short.mctal" ]) $"runs"
              [ $"good.mctal"; $"short.mctal" ]).
    + reflexivity.
    + simpl. tauto.
    + reflexivity.
    + reflexivity.
  - assert (H0 : nth_error [ $"tally 4"; $"f 0" ] 0 = Some $"tally 4")
      by reflexivity.
    assert (Ht : contains $"tally" $"tally 4" = true) by reflexivity.
    split; [exact H0|]. split; [exact Ht|].
    apply (Hnames 0 $"tally 4" H0 Ht). simpl. lia.
  - assert (Hall : forall i line,
         nth_error (remove_blank_lines sample_good) i = Some line ->
         contains $"tally" line = true ->
         i + 2 < length (remove_blank_lines sample_good)).
    { intros i line Hnth Ht.
      do 6 (destruct i as [|i];
            [injection Hnth as <-; first [discriminate Ht | simpl; lia]|]).
      destruct i; discriminate Hnth. }
    split; [exact Hall|].
    destruct (Hok Hall) as (names & Hn & Hc & _).
    exists names. split; [exact Hn|]. rewrite Hc. reflexivity.
Defined.

Lemma per_file_table_header_and_rows_witness :
  file_table $"good.mctal" sample_good = Ok sample_good_table
  /\ hd_error (Names sample_good_table) = Some (CStr $"good")
  /\ hd_error (Values sample_good_table) = Some (CStr $"MCNP6")
  /\ hd_error (Errors sample_good_table) = Some (CStr $"NPS: 12345678")
  /\ nrows sample_good_table = 2
  /\ exists version particles names,
       extract_version (remove_blank_lines sample_good) = Ok version
       /\ extract_particles (remove_blank_lines sample_good) = Ok particles
       /\ extract_tally_names (remove_blank_lines sample_good) = Ok names
       /\ hd_error (Values sample_good_table) = Some (CStr version)
       /\ hd_error (Errors sample_good_table) = Some (CStr particles)
       /\ nrows sample_good_table = 1 + length names.
Proof.
  assert (H : file_table $"good.mctal" sample_good = Ok sample_good_table)
    by reflexivity.
  destruct (per_file_table_header_and_rows _ _ H)
    as (version & particles & names & Hv & Hp & Hn & _ & _ & Hhv & Hhe & Hr & _).
  split; [exact H|]. do 4 (split; [reflexivity|]).
  exists version, particles, names. auto 10.
Defined.

Lemma failed_file_aborts_batch_witness :
  listing (sample_world [ $"short.mctal"; $"notes.txt"; $"good.mctal" ])
          $"runs"
  = Ok [ $"short.mctal"; $"notes.txt"; $"good.mctal" ]
  /\ mctal_files_of [ $"short.mctal"; $"notes.txt"; $"good.mctal" ]
     = [ $"good.mctal"; $"short.mctal" ]
  /\ load_table (sample_world [ $"short.mctal"; $"notes.txt"; $"good.mctal" ])
                $"runs" $"good.mctal" = Ok sample_good_table
  /\ load_table (sample_world [ $"short.mctal"; $"notes.txt"; $"good.mctal" ])
                $"runs" $"short.mctal" = Raise IndexError
  /\ exists e',
       process_files $"runs"
         (sample_world [ $"short.mctal"; $"notes.txt"; $"good.mctal" ])
       = (Raise e',
          sample_world [ $"short.mctal"; $"notes.txt"; $"good.mctal" ])
       /\ workbook
            (snd (process_files $"runs"
                    (sample_world
                       [ $"short.mctal"; $"notes.txt"; $"good.mctal" ])))
            (path_join $"runs" $"tally_extractor.xlsx")
          = None.
Proof.
  do 4 (split; [reflexivity|]).
  apply (@failed_file_aborts_batch DecimalParser
           (sample_world [ $"short.mctal"; $"notes.txt"; $"good.mctal" ])
           $"runs" [ $"short.mctal"; $"notes.txt"; $"good.mctal" ]
           $"short.mctal" IndexError).
  - reflexivity.
  - simpl. tauto.
  - reflexivity.
  - reflexivity.
Defined.

Lemma count_mismatch_fails_witness :
  count_tally (remove_blank_lines sample_mismatch) = 1
  /\ count_vals (remove_blank_lines sample_mismatch) = 0
  /\ file_table (FP := DecimalParser) $"mismatch.mctal" sample_mismatch
     = Raise ValueError
  /\ exists e,
       process_files $"runs"
         (sample_world [ $"good.mctal"; $"mismatch.mctal" ])
       = (Raise e, sample_world [ $"good.mctal"; $"mismatch.mctal" ]).
Proof.
  assert (H : count_tally (remove_blank_lines sample_mismatch)
              <> count_vals (remove_blank_lines sample_mismatch))
    by (vm_compute; discriminate).
  destruct (count_mismatch_fails (FP := DecimalParser)
              $"mismatch.mctal" sample_mismatch H)
    as (_ & Hval & Hrun & _).
  split; [reflexivity|]. split; [reflexivity|]. split.
  - apply (Hval $"MCNP6" $"Particles not found" [] [ $"flux cell 1" ] [] []);
      reflexivity.
  - apply (Hrun (sample_world [ $"good.mctal"; $"mismatch.mctal" ]) $"runs"
                [ $"good.mctal"; $"mismatch.mctal" ]).
    + reflexivity.
    + simpl. tauto.
    + reflexivity.
    + reflexivity.
Defined.

Lemma blank_file_out_of_range_witness :
  Forall (fun line => nonblank line = false) sample_blank
  /\ remove_blank_lines sample_blank = []
  /\ extract_version (remove_blank_lines sample_blank) = Raise IndexError
  /\ extract_particles (remove_blank_lines sample_blank) = Raise IndexError
  /\ file_table (FP := DecimalParser) $"blank.mctal" sample_blank
     = Raise IndexError
  /\ exists e,
       process_files $"runs" (sample_world [ $"blank.mctal" ])
       = (Raise e, sample_world [ $"blank.mctal" ]).
Proof.
  assert (H : Forall (fun line => nonblank line = false) sample_blank)
    by (repeat constructor).
  destruct (blank_file_out_of_range (FP := DecimalParser) $"blank.mctal" H)
    as (Hn & Hv & Hp & _ & _ & Htab & Hrun).
  split; [exact H|]. split; [exact Hn|]. split; [exact Hv|].
  split; [exact Hp|]. split; [exact Htab|].
  apply (Hrun (sample_world [ $"blank.mctal" ]) $"runs" [ $"blank.mctal" ]).
  - reflexivity.
  - simpl. tauto.
  - reflexivity.
  - reflexivity.
Defined.

(* ================================================================= *)
(** ** Further properties: normalization and tokens *)

Lemma lstrip_spaces_app pre t :
  forallb is_space pre = true ->
  drop_while is_space (pre ++ t) = drop_while is_space t.
Proof.
  induction pre as [|c pre IH]; [reflexivity|]. simpl.
  intros H. apply andb_true_iff in H as [Hc Hp]. rewrite Hc. auto.
Qed.

Lemma rstrip_app_spaces t post :
  forallb is_space post = true -> rstrip (t ++ post) = rstrip t.
Proof.
  intros H. unfold rstrip. rewrite rev_app_distr, lstrip_spaces_app; auto.
  now rewrite forallb_rev.
Qed.

Lemma strip_app_spaces l post :
  forallb is_space post = true -> strip (l ++ post) = strip l.
Proof.
  intros H. unfold strip, lstrip.
  induction l as [|c l IH]; simpl.
  - rewrite (proj2 (drop_while_nil_iff _ _) H). reflexivity.
  - destruct (is_space c); [exact IH|].
    exact (@rstrip_app_spaces (c :: l) post H).
Qed.

Lemma strip_padded l l' : padded l l' -> strip l' = strip l.
Proof.
  intros (pre & post & Hpre & Hpost & ->).
  unfold strip at 1. unfold lstrip. rewrite lstrip_spaces_app by exact Hpre.
  now apply strip_app_spaces.
Qed.

Lemma remove_blank_lines_app a b :
  remove_blank_lines (a ++ b) = remove_blank_lines a ++ remove_blank_lines b.
Proof. unfold remove_blank_lines. now rewrite filter_app, map_app. Qed.

Lemma remove_blank_lines_padded raw raw' :
  Forall2 padded raw raw' ->
  remove_blank_lines raw' = remove_blank_lines raw.
Proof.
  induction 1 as [|l l' raw raw' Hl _ IH]; [reflexivity|].
  now rewrite !remove_blank_lines_cons, (@strip_padded _ _ Hl), IH.
Qed.

Lemma remove_blank_lines_skip a blank b :
  nonblank blank = false ->
  remove_blank_lines (a ++ blank :: b) = remove_blank_lines (a ++ b).
Proof.
  intros H. rewrite !remove_blank_lines_app, remove_blank_lines_cons.
  now rewrite (blank_strip _ H).
Qed.

Lemma strip_trimmed s : truthy (strip s) = true -> trimmed (strip s).
Proof.
  unfold strip. intros H.
  destruct (lstrip s) as [|c r] eqn:E; [discriminate|].
  pose proof (drop_while_head _ _ E) as Hc.
  rewrite rstrip_cons_keep by exact Hc.
  split; [discriminate|]. split; [exact Hc|].
  rewrite <- rstrip_cons_keep by exact Hc. unfold rstrip.
  destruct (drop_while is_space (rev (c :: r))) as [|x d] eqn:D.
  - exfalso. apply drop_while_nil_iff in D. rewrite forallb_rev in D.
    simpl in D. now rewrite Hc in D.
  - simpl. rewrite last_last. exact (drop_while_head _ _ D).
Qed.

(** X1: [remove_blank_lines] keeps no empty line and no line that starts or
    ends with whitespace; every line it returns is unchanged by [strip]. *)
Theorem remove_blank_lines_trimmed (file_lines : list str) :
  Forall (fun line => trimmed line /\ strip line = line)
         (remove_blank_lines file_lines).
Proof.
  unfold remove_blank_lines. apply Forall_forall. intros x Hin.
  apply in_map_iff in Hin as (y & <- & Hy).
  apply filter_In in Hy as [_ Hy].
  split; [now apply strip_trimmed|apply strip_idem].
Qed.

(** Whitespace around the lines and blank lines between them do not
    change what [remove_blank_lines] returns. *)
Lemma remove_blank_lines_layout (raw_lines raw_lines' : list str)
    (H : Forall2 padded raw_lines raw_lines') :
  remove_blank_lines raw_lines' = remove_blank_lines raw_lines
  /\ forall a blank b,
       raw_lines = a ++ b -> nonblank blank = false ->
       remove_blank_lines (a ++ blank :: b) = remove_blank_lines raw_lines'.
Proof.
  pose proof (@remove_blank_lines_padded _ _ H) as E.
  split; [exact E|].
  intros a blank b -> Hb. now rewrite remove_blank_lines_skip, E.
Qed.

Lemma split_aux_clean s : forall cur,
  forallb not_space cur = true -> Forall clean_token (split_aux cur s).
Proof.
  assert (Hrun : forall cur, forallb not_space cur = true ->
                   truthy cur = true -> clean_token (rev cur)).
  { intros cur Hc Ht. split.
    - intros E. rewrite <- truthy_rev, E in Ht. discriminate.
    - now rewrite forallb_rev. }
  induction s as [|c s IH]; intros cur Hc; simpl.
  - destruct (truthy cur) eqn:T; constructor; auto.
  - destruct (is_space c) eqn:E.
    + destruct (truthy cur) eqn:T; [constructor; auto|]; now apply IH.
    + apply IH. simpl. unfold not_space at 1. now rewrite E.
Qed.

Lemma split_clean s : Forall clean_token (split s).
Proof. now apply split_aux_clean. Qed.

Lemma split_spaces_app pre t :
  forallb is_space pre = true -> split (pre ++ t) = split t.
Proof.
  intros H. rewrite split_lstrip, lstrip_spaces_app by exact H.
  symmetry. apply split_lstrip.
Qed.

Lemma split_aux_app_spaces s post : forall cur,
  forallb is_space post = true ->
  split_aux cur (s ++ post) = split_aux cur s.
Proof.
  induction s as [|c s IH]; intros cur H; simpl.
  - now apply split_aux_spaces.
  - rewrite !IH by exact H. reflexivity.
Qed.

Lemma split_padded v v' : padded v v' -> split v' = split v.
Proof.
  intros (pre & post & Hpre & Hpost & ->).
  rewrite split_spaces_app by exact Hpre.
  now apply split_aux_app_spaces.
Qed.

Lemma index_In {A} (l : list A) i x : index l i = Ok x -> In x l.
Proof.
  unfold index. destruct (nth_error l i) eqn:E; [|discriminate].
  intros [= <-]. eapply nth_error_In, E.
Qed.

Lemma index_last_In {A} (l : list A) x : index_last l = Ok x -> In x l.
Proof.
  unfold index_last. destruct (rev l) as [|y r] eqn:E; [discriminate|].
  intros [= <-]. apply in_rev. rewrite E. now left.
Qed.

(** X2: Every token [extract_energies] or [extract_errors] returns is a
    token of the corresponding value line: non-empty and free of
    whitespace. *)
Theorem extracted_tokens_clean (tally_values tokens : list str)
    (H : extract_energies tally_values = Ok tokens
         \/ extract_errors tally_values = Ok tokens) :
  Forall2 (fun value token => In token (split value) /\ clean_token token)
          tally_values tokens.
Proof.
  assert (Hc : forall v t, In t (split v) -> clean_token t).
  { intros v t Hin. pose proof (split_clean v) as F.
    rewrite Forall_forall in F. now apply F. }
  destruct H as [H|H]; apply mapR_ok_all in H;
    (induction H as [|v t vs ts Hv _ IH]; constructor; [|exact IH]).
  - apply index_In in Hv. split; [exact Hv|]. eapply Hc, Hv.
  - apply index_last_In in Hv. split; [exact Hv|]. eapply Hc, Hv.
Qed.

(** X3: Whitespace added around the value lines changes neither the result
    of [extract_energies] nor that of [extract_errors] (including whether
    they raise). *)
Theorem extract_tokens_padding (tally_values tally_values' : list str)
    (H : Forall2 padded tally_values tally_values') :
  extract_energies tally_values' = extract_energies tally_values
  /\ extract_errors tally_values' = extract_errors tally_values.
Proof.
  unfold extract_energies, extract_errors.
  induction H as [|v v' vs vs' Hv _ [IH1 IH2]]; [split; reflexivity|].
  simpl. now rewrite (@split_padded _ _ Hv), IH1, IH2.
Qed.

(* ================================================================= *)
(** ** Further properties: the outcome for one file *)

Lemma mapR_raise_inv {A B} (f : A -> result B) l e :
  mapR f l = Raise e -> exists x, In x l /\ f x = Raise e.
Proof.
  induction l as [|y l IH]; simpl; [discriminate|].
  destruct (f y) eqn:Ey; simpl.
  - destruct (mapR f l); simpl; [discriminate|].
    intros [= <-]. destruct (IH eq_refl) as (x & Hin & Hx). eauto.
  - intros [= <-]. eauto.
Qed.

Lemma mapR_ok_iff {A B} (f : A -> result B) l :
  (exists ys, mapR f l = Ok ys) <-> Forall (fun x => is_ok (f x) = true) l.
Proof.
  split.
  - intros [ys H]. apply mapR_ok_all in H.
    induction H as [|x y l ys Hx _ IH]; constructor; auto. now rewrite Hx.
  - induction 1 as [|x l Hx _ [ys IH]]; [now exists []|].
    simpl. destruct (f x) as [y|]; [|discriminate]. simpl. rewrite IH.
    simpl. eauto.
Qed.

Lemma extract_at_raise_inv test off file_lines e :
  extract_at test off file_lines = Raise e ->
  exists i line,
    nth_error file_lines i = Some line /\ test line = true
    /\ length file_lines <= i + off.
Proof.
  intros H. apply mapR_raise_inv in H as ([i line] & Hin & Hx).
  apply filter_In in Hin as [Hin Ht]. apply In_enumerate in Hin.
  exists i, line. simpl in *. repeat split; auto.
  unfold index in Hx. destruct (nth_error file_lines (i + off)) eqn:E;
    [discriminate|].
  now apply nth_error_None.
Qed.

Lemma extract_at_no_match test off file_lines :
  Forall (fun line => test line = false) file_lines ->
  extract_at test off file_lines = Ok [].
Proof.
  intros H. unfold extract_at.
  replace (filter (fun il => test (snd il)) (enumerate file_lines))
    with (@nil (nat * str)); [reflexivity|].
  symmetry. unfold enumerate. generalize 0.
  induction H as [|x l Hx _ IH]; intros k; [reflexivity|].
  simpl. rewrite Hx. apply IH.
Qed.

Lemma extract_at_ok_in_range test off file_lines out :
  extract_at test off file_lines = Ok out ->
  forall i line,
    nth_error file_lines i = Some line -> test line = true ->
    i + off < length file_lines.
Proof.
  intros H i line Hi Ht.
  destruct (Nat.lt_ge_cases (i + off) (length file_lines)) as [Hlt|Hge];
    [exact Hlt|].
  rewrite (@extract_at_overrun test off file_lines i line Hi Ht Hge) in H.
  discriminate.
Qed.

Lemma extract_at_ok_members test off file_lines out :
  extract_at test off file_lines = Ok out ->
  forall v,
    In v out <->
    exists i line,
      nth_error file_lines i = Some line /\ test line = true
      /\ nth_error file_lines (i + off) = Some v.
Proof.
  intros H v.
  pose proof (@extract_at_ok_in_range _ _ _ _ H) as Hr.
  rewrite (extract_at_in_range _ _ _ Hr) in H. injection H as <-.
  rewrite in_map_iff. split.
  - intros ([i line] & <- & Hin).
    apply filter_In in Hin as [Hin Ht]. apply In_enumerate in Hin.
    simpl in *. exists i, line. repeat split; auto.
    apply nth_error_nth'. eauto.
  - intros (i & line & Hi & Ht & Hv). exists (i, line). simpl. split.
    + now apply nth_error_nth.
    + apply filter_In. split; [now apply In_enumerate|exact Ht].
Qed.

Section FileOutcome.
Context `{FP : FloatParser}.

Lemma to_float_raise_kind t e : to_float t = Raise e -> e = ValueError.
Proof. unfold to_float. destruct (py_float t); congruence. Qed.

Lemma float_energies_raise_kind vs e :
  Forall (fun v => nonblank v = true) vs ->
  float_energies vs = Raise e -> e = ValueError.
Proof.
  intros H. unfold float_energies. rewrite (extract_energies_tokens H).
  cbn [rbind]. apply mapR_raise_kind. intros x e'. apply to_float_raise_kind.
Qed.

Lemma float_errors_raise_kind vs e :
  Forall (fun v => nonblank v = true) vs ->
  float_errors vs = Raise e -> e = ValueError.
Proof.
  intros H. unfold float_errors. rewrite (extract_errors_tokens H).
  cbn [rbind]. apply mapR_raise_kind. intros x e'. apply to_float_raise_kind.
Qed.

Lemma new_DataFrame_raise_kind names values errors e :
  new_DataFrame names values errors = Raise e -> e = ValueError.
Proof.
  unfold new_DataFrame. destruct (_ && _); congruence.
Qed.

Lemma file_table_same_lines file raw_lines raw_lines' :
  remove_blank_lines raw_lines = remove_blank_lines raw_lines' ->
  file_table file raw_lines = file_table file raw_lines'.
Proof. intros H. unfold file_table. now rewrite H. Qed.

(** X5: The table of a file, or the exception raised for it, does not depend
    on whitespace around its lines nor on blank lines between them. *)
Theorem file_table_layout (file : str) (raw_lines raw_lines' : list str)
    (H : Forall2 padded raw_lines raw_lines') :
  file_table file raw_lines' = file_table file raw_lines
  /\ forall a blank b,
       raw_lines = a ++ b -> nonblank blank = false ->
       file_table file (a ++ blank :: b) = file_table file raw_lines'.
Proof.
  destruct (remove_blank_lines_layout H) as [E1 E2].
  split.
  - now apply file_table_same_lines.
  - intros a blank b Hab Hb. apply file_table_same_lines. now apply E2.
Qed.

(** X6: [file_table] raises [IndexError] exactly when the file has no
    non-blank line, or a line containing [tally] has fewer than two lines
    after it, or the last line is [vals]; any other exception it raises is
    a [ValueError]. *)
Theorem file_table_index_error (file : str) (raw_lines : list str) :
  (file_table file raw_lines = Raise IndexError <->
   remove_blank_lines raw_lines = []
   \/ exists i line,
        nth_error (remove_blank_lines raw_lines) i = Some line
        /\ ((contains $"tally" line = true
             /\ length (remove_blank_lines raw_lines) <= i + 2)
            \/ (line = $"vals"
                /\ length (remove_blank_lines raw_lines) <= i + 1)))
  /\ (forall e, file_table file raw_lines = Raise e ->
                e = IndexError \/ e = ValueError).
Proof.
  rewrite file_table_steps. cbv zeta.
  pose proof (remove_blank_lines_nonblank raw_lines) as Hnb.
  destruct (remove_blank_lines raw_lines) as [|first rest] eqn:El.
  { split; [|intros e [= <-]; now left].
    split; [now left|reflexivity]. }
  set (lines := first :: rest) in *.
  destruct (extract_version_total first rest) as [v Hv].
  destruct (extract_particles_total first rest) as [p Hp].
  fold lines in Hv, Hp. rewrite Hv, Hp. cbn [rbind].
  assert (Hbad : forall i line,
    nth_error lines i = Some line ->
    (contains $"tally" line = true /\ length lines <= i + 2)
    \/ (line = $"vals" /\ length lines <= i + 1) ->
    extract_tally_values lines = Raise IndexError
    \/ extract_tally_names lines = Raise IndexError).
  { intros i line Hi [[Ht Hlen]|[-> Hlen]].
    - right. rewrite extract_tally_names_at.
      eapply extract_at_overrun; eauto.
    - left. rewrite extract_tally_values_at.
      eapply extract_at_overrun; eauto. }
  destruct (extract_tally_values lines) as [values|e1] eqn:Evals.
  2:{ cbn [rbind]. rewrite extract_tally_values_at in Evals.
      pose proof (@extract_at_raise_kind _ _ _ _ Evals) as ->.
      split; [|intros e [= <-]; now left].
      split; [intros _|reflexivity]. right.
      apply extract_at_raise_inv in Evals as (i & line & Hi & Ht & Hlen).
      apply str_eqb_eq in Ht. exists i, line. auto. }
  cbn [rbind].
  assert (Hvnb : Forall (fun x => nonblank x = true) values).
  { rewrite extract_tally_values_at in Evals.
    eapply extract_at_sublist; [exact Hnb|exact Evals]. }
  destruct (extract_tally_names lines) as [names|e2] eqn:Enames.
  2:{ cbn [rbind]. rewrite extract_tally_names_at in Enames.
      pose proof (@extract_at_raise_kind _ _ _ _ Enames) as ->.
      split; [|intros e [= <-]; now left].
      split; [intros _|reflexivity]. right.
      apply extract_at_raise_inv in Enames as (i & line & Hi & Ht & Hlen).
      exists i, line. auto. }
  cbn [rbind].
  assert (Hno : ~ (lines = []
     \/ exists i line,
          nth_error lines i = Some line
          /\ ((contains $"tally" line = true /\ length lines <= i + 2)
              \/ (line = $"vals" /\ length lines <= i + 1)))).
  { intros [E|(i & line & Hi & Hb)]; [discriminate|].
    destruct (Hbad i line Hi Hb); discriminate. }
  assert (Hkind : forall e,
    (energies <- float_energies values ;;
     errors <- float_errors values ;;
     new_DataFrame (CStr (fst (splitext file)) :: map CStr names)
                   (CStr v :: map CNum energies)
                   (CStr p :: map CNum errors)) = Raise e ->
    e = ValueError).
  { intros e. destruct (float_energies values) as [en|e3] eqn:Een.
    - cbn [rbind]. destruct (float_errors values) as [er|e4] eqn:Eer.
      + cbn [rbind]. apply new_DataFrame_raise_kind.
      + cbn [rbind]. intros [= <-].
        eapply float_errors_raise_kind; eauto.
    - cbn [rbind]. intros [= <-].
      eapply float_energies_raise_kind; eauto. }
  split.
  - split; [|intros H; exfalso; exact (Hno H)].
    intros H. apply Hkind in H. discriminate.
  - intros e H. right. now apply Hkind.
Qed.

(** X7: [file_table] returns a table exactly when the file has a non-blank
    line, every line containing [tally] has two lines after it, every
    [vals] line has one, [float] accepts the first and the last token of
    every value line, and there are as many [tally] lines as [vals]
    lines. *)
Theorem file_table_succeeds_iff (file : str) (raw_lines : list str) :
  (exists df, file_table file raw_lines = Ok df) <->
  remove_blank_lines raw_lines <> []
  /\ (forall i line,
        nth_error (remove_blank_lines raw_lines) i = Some line ->
        contains $"tally" line = true ->
        i + 2 < length (remove_blank_lines raw_lines))
  /\ (forall i,
        nth_error (remove_blank_lines raw_lines) i = Some $"vals" ->
        i + 1 < length (remove_blank_lines raw_lines))
  /\ (forall i value,
        nth_error (remove_blank_lines raw_lines) i = Some $"vals" ->
        nth_error (remove_blank_lines raw_lines) (i + 1) = Some value ->
        py_float (spec_first_token value) <> None
        /\ py_float (spec_last_token value) <> None)
  /\ count_tally (remove_blank_lines raw_lines)
     = count_vals (remove_blank_lines raw_lines).
Proof.
  pose proof (remove_blank_lines_nonblank raw_lines) as Hnb.
  set (lines := remove_blank_lines raw_lines) in *.
  split.
  - intros [df H]. apply file_table_ok in H
      as (version & particles & values & names & energies & errors
          & Hv & Hp & Hvals & Hnames & Hen & Her & _ & Hl1 & Hl2).
    fold lines in Hv, Hp, Hvals, Hnames.
    rewrite extract_tally_values_at in Hvals.
    rewrite extract_tally_names_at in Hnames.
    assert (Hvnb : Forall (fun x => nonblank x = true) values)
      by (eapply extract_at_sublist; [exact Hnb|exact Hvals]).
    split; [|split; [|split; [|split]]].
    + intros E. rewrite E in Hv. discriminate.
    + apply (@extract_at_ok_in_range _ _ _ _ Hnames).
    + intros i Hi.
      apply (@extract_at_ok_in_range _ _ _ _ Hvals i $"vals" Hi).
      apply str_eqb_refl.
    + intros i value Hi Hnext.
      assert (Hin : In value values).
      { apply (@extract_at_ok_members _ _ _ _ Hvals).
        exists i, $"vals". repeat split; auto. }
      unfold float_energies in Hen. unfold float_errors in Her.
      rewrite (extract_energies_tokens Hvnb) in Hen.
      rewrite (extract_errors_tokens Hvnb) in Her.
      cbn [rbind] in Hen, Her.
      assert (He : exists ys, mapR to_float (map spec_first_token values)
                              = Ok ys) by eauto.
      assert (Hr : exists ys, mapR to_float (map spec_last_token values)
                              = Ok ys) by eauto.
      apply mapR_ok_iff in He, Hr. rewrite Forall_forall in He, Hr.
      specialize (He (spec_first_token value) (in_map _ _ _ Hin)).
      specialize (Hr (spec_last_token value) (in_map _ _ _ Hin)).
      unfold to_float in He, Hr.
      split; intros E; rewrite E in *; discriminate.
    + apply extract_at_ok_length in Hnames, Hvals.
      apply float_energies_length in Hen.
      unfold count_tally, count_vals. congruence.
  - intros (Hne & Hnames & Hvals & Hnum & Hcount).
    rewrite file_table_steps. cbv zeta. fold lines.
    destruct lines as [|first rest] eqn:El; [congruence|].
    rewrite <- El in *.
    destruct (extract_version_total first rest) as [v Hv].
    destruct (extract_particles_total first rest) as [p Hp].
    rewrite <- El in Hv, Hp. rewrite Hv, Hp. cbn [rbind].
    assert (Hvals' : forall i line,
      nth_error lines i = Some line -> str_eqb line $"vals" = true ->
      i + 1 < length lines).
    { intros i line Hi Ht. apply str_eqb_eq in Ht. subst line. auto. }
    pose proof (extract_at_in_range _ _ _ Hvals') as Ev.
    pose proof (extract_at_in_range _ _ _ Hnames) as En.
    rewrite <- extract_tally_values_at in Ev.
    rewrite <- extract_tally_names_at in En.
    rewrite Ev, En. cbn [rbind].
    rewrite extract_tally_values_at in Ev.
    rewrite extract_tally_names_at in En.
    set (values := map _ _) in Ev.
    set (names := map _ _) in En.
    fold values. fold names.
    assert (Hvnb : Forall (fun x => nonblank x = true) values)
      by (eapply extract_at_sublist; [exact Hnb|exact Ev]).
    assert (Hall : forall value, In value values ->
      py_float (spec_first_token value) <> None
      /\ py_float (spec_last_token value) <> None).
    { intros value Hin.
      apply (@extract_at_ok_members _ _ _ _ Ev) in Hin
        as (i & line & Hi & Ht & Hnext).
      apply str_eqb_eq in Ht. subst line. eauto. }
    assert (He : exists ys, float_energies values = Ok ys).
    { unfold float_energies. rewrite (extract_energies_tokens Hvnb).
      cbn [rbind]. apply mapR_ok_iff, Forall_forall.
      intros t Ht. apply in_map_iff in Ht as (value & <- & Hin).
      unfold to_float. destruct (Hall value Hin) as [H1 _].
      destruct (py_float (spec_first_token value)); [reflexivity|congruence]. }
    assert (Hr : exists ys, float_errors values = Ok ys).
    { unfold float_errors. rewrite (extract_errors_tokens Hvnb).
      cbn [rbind]. apply mapR_ok_iff, Forall_forall.
      intros t Ht. apply in_map_iff in Ht as (value & <- & Hin).
      unfold to_float. destruct (Hall value Hin) as [_ H2].
      destruct (py_float (spec_last_token value)); [reflexivity|congruence]. }
    destruct He as [energies He]. destruct Hr as [errors Hr].
    rewrite He, Hr. cbn [rbind].
    apply extract_at_ok_length in En, Ev.
    apply float_energies_length in He. apply float_errors_length in Hr.
    unfold count_tally, count_vals in Hcount.
    unfold new_DataFrame. simpl. rewrite !length_map.
    replace (length names =? length energies) with true
      by (symmetry; apply Nat.eqb_eq; congruence).
    replace (length energies =? length errors) with true
      by (symmetry; apply Nat.eqb_eq; congruence).
    simpl. eauto.
Qed.

End FileOutcome.

(* ================================================================= *)
(** ** Further properties: the order of the files *)

Lemma nat_of_ascii_inj x y : nat_of_ascii x = nat_of_ascii y -> x = y.
Proof.
  intros H. rewrite <- (ascii_nat_embedding x), <- (ascii_nat_embedding y).
  now rewrite H.
Qed.

Lemma str_leb_total a : forall b, str_leb a b = true \/ str_leb b a = true.
Proof.
  induction a as [|x a IH]; intros [|y b]; simpl; auto.
  destruct (Nat.ltb_spec (nat_of_ascii x) (nat_of_ascii y));
    destruct (Nat.ltb_spec (nat_of_ascii y) (nat_of_ascii x)); auto.
Qed.

Lemma str_leb_trans a : forall b c,
  str_leb a b = true -> str_leb b c = true -> str_leb a c = true.
Proof.
  induction a as [|x a IH]; intros [|y b] [|z c]; simpl; auto;
    try discriminate.
  destruct (Nat.ltb_spec (nat_of_ascii x) (nat_of_ascii y));
    destruct (Nat.ltb_spec (nat_of_ascii y) (nat_of_ascii x));
    destruct (Nat.ltb_spec (nat_of_ascii y) (nat_of_ascii z));
    destruct (Nat.ltb_spec (nat_of_ascii z) (nat_of_ascii y));
    destruct (Nat.ltb_spec (nat_of_ascii x) (nat_of_ascii z));
    destruct (Nat.ltb_spec (nat_of_ascii z) (nat_of_ascii x));
    try discriminate; try lia; auto.
  apply IH.
Qed.

Lemma str_leb_antisym a : forall b,
  str_leb a b = true -> str_leb b a = true -> a = b.
Proof.
  induction a as [|x a IH]; intros [|y b]; simpl; auto; try discriminate.
  destruct (Nat.ltb_spec (nat_of_ascii x) (nat_of_ascii y));
    destruct (Nat.ltb_spec (nat_of_ascii y) (nat_of_ascii x));
    try discriminate; try lia.
  intros H1 H2. f_equal; [apply nat_of_ascii_inj; lia|now apply IH].
Qed.

Lemma str_leb_lex a : forall b, str_leb a b = true <-> spec_lex_le a b.
Proof.
  induction a as [|x a IH]; intros b.
  - simpl. split; [intros _; left; now exists b|reflexivity].
  - destruct b as [|y b]; simpl.
    + split; [discriminate|].
      intros [[r H]|(common & x' & y' & ra & rb & _ & H & _)];
        [discriminate|]. now destruct common.
    + destruct (Nat.ltb_spec (nat_of_ascii x) (nat_of_ascii y)) as [Hlt|Hge].
      * split; [intros _|reflexivity].
        right. exists [], x, y, a, b. auto.
      * destruct (Nat.ltb_spec (nat_of_ascii y) (nat_of_ascii x)) as [Hgt|Hle].
        -- split; [discriminate|].
           intros [[r H]|(common & x' & y' & ra & rb & Ha & Hb & Hxy)].
           ++ injection H as -> _. lia.
           ++ destruct common as [|c common]; simpl in Ha, Hb.
              ** injection Ha as -> _. injection Hb as -> _. lia.
              ** injection Ha as -> _. injection Hb as -> _. lia.
        -- assert (x = y) by (apply nat_of_ascii_inj; lia). subst y.
           rewrite IH. split.
           ++ intros [[r ->]|(common & x' & y' & ra & rb & -> & -> & Hxy)].
              ** left. now exists r.
              ** right. exists (x :: common), x', y', ra, rb. auto.
           ++ intros [[r H]|(common & x' & y' & ra & rb & Ha & Hb & Hxy)].
              ** injection H as ->. left. now exists r.
              ** destruct common as [|c common]; simpl in Ha, Hb.
                 --- injection Ha as -> _. injection Hb as -> _. lia.
                 --- injection Ha as _ ->. injection Hb as _ ->.
                     right. exists common, x', y', ra, rb. auto.
Qed.

Lemma insert_sorted_perm x l : Permutation (insert_sorted x l) (x :: l).
Proof.
  induction l as [|y l IH]; simpl; [reflexivity|].
  destruct (str_leb x y); [reflexivity|].
  rewrite IH. apply perm_swap.
Qed.

Lemma sorted_perm l : Permutation (sorted l) l.
Proof.
  unfold sorted. induction l as [|x l IH]; simpl; [reflexivity|].
  rewrite insert_sorted_perm. now constructor.
Qed.

Lemma insert_sorted_sorted x l :
  StronglySorted str_le l -> StronglySorted str_le (insert_sorted x l).
Proof.
  induction 1 as [|y l Hs IH Hy]; simpl.
  - repeat constructor.
  - destruct (str_leb x y) eqn:E.
    + constructor; [now constructor|]. constructor; [exact E|].
      eapply Forall_impl; [|exact Hy]. intros z Hz.
      unfold str_le in *. eapply str_leb_trans; eauto.
    + constructor; [exact IH|].
      apply Forall_forall. intros z Hz. apply In_insert_sorted in Hz.
      destruct Hz as [->|Hz].
      * destruct (str_leb_total x y) as [H|H]; [congruence|exact H].
      * rewrite Forall_forall in Hy. now apply Hy.
Qed.

Lemma sorted_sorted l : StronglySorted str_le (sorted l).
Proof.
  unfold sorted. induction l as [|x l IH]; simpl; [constructor|].
  now apply insert_sorted_sorted.
Qed.

Lemma sorted_unique l1 : forall l2,
  StronglySorted str_le l1 -> StronglySorted str_le l2 ->
  Permutation l1 l2 -> l1 = l2.
Proof.
  induction l1 as [|a l1 IH]; intros l2 H1 H2 HP.
  - apply Permutation_nil in HP. now subst.
  - destruct l2 as [|b l2];
      [apply Permutation_sym, Permutation_nil in HP; discriminate|].
    apply StronglySorted_inv in H1 as [H1 Ha].
    apply StronglySorted_inv in H2 as [H2 Hb].
    rewrite Forall_forall in Ha, Hb.
    assert (a = b).
    { assert (Hab : In a (b :: l2))
        by (eapply Permutation_in; [exact HP|now left]).
      assert (Hba : In b (a :: l1))
        by (eapply Permutation_in; [apply Permutation_sym, HP|now left]).
      destruct Hab as [->|Hab]; [reflexivity|].
      destruct Hba as [->|Hba]; [reflexivity|].
      apply str_leb_antisym; [apply Ha, Hba|apply Hb, Hab]. }
    subst b. f_equal. apply IH; auto.
    eapply Permutation_cons_inv, HP.
Qed.

Lemma filter_perm {A} (f : A -> bool) l l' :
  Permutation l l' -> Permutation (filter f l) (filter f l').
Proof.
  induction 1 as [|x l l' _ IH|x y l|l l' l'' _ IH1 _ IH2]; simpl.
  - reflexivity.
  - destruct (f x); auto.
  - destruct (f x), (f y); auto using perm_swap.
  - now rewrite IH1.
Qed.

Lemma startswith_iff p : forall s,
  startswith p s = true <-> exists r, s = p ++ r.
Proof.
  induction p as [|a p IH]; intros s; simpl.
  - split; [intros _; now exists s|reflexivity].
  - destruct s as [|b s].
    + split; [discriminate|intros [r H]; discriminate].
    + rewrite andb_true_iff, Ascii.eqb_eq, IH. split.
      * intros [-> [r ->]]. now exists r.
      * intros [r [= -> ->]]. split; [reflexivity|now exists r].
Qed.

Lemma endswith_iff p s :
  endswith p s = true <-> exists stem, s = stem ++ p.
Proof.
  unfold endswith. rewrite startswith_iff. split.
  - intros [r H]. exists (rev r).
    rewrite <- (rev_involutive s), H, rev_app_distr.
    now rewrite rev_involutive.
  - intros [stem ->]. exists (rev stem). apply rev_app_distr.
Qed.

(** X10: The files the run processes are exactly the listed names that end in
    [.mctal], each as often as it is listed, in lexicographic order of
    their characters; the order of the listing does not matter. *)
Theorem mctal_files_sorted (names : list str) :
  StronglySorted spec_lex_le (mctal_files_of names)
  /\ Permutation (mctal_files_of names) (filter (endswith $".mctal") names)
  /\ (forall file,
        In file (mctal_files_of names) <->
        In file names /\ exists stem, file = stem ++ $".mctal")
  /\ (forall names',
        Permutation names names' ->
        mctal_files_of names' = mctal_files_of names).
Proof.
  split; [|split; [|split]].
  - pose proof (sorted_sorted (filter (endswith $".mctal") names)) as H.
    fold (mctal_files_of names) in H.
    induction H as [|a l _ IH Ha]; constructor; auto.
    eapply Forall_impl; [|exact Ha]. intros b Hb. now apply str_leb_lex.
  - apply sorted_perm.
  - intros file. rewrite In_mctal_files, endswith_iff. reflexivity.
  - intros names' HP. unfold mctal_files_of.
    apply sorted_unique; try apply sorted_sorted.
    rewrite !sorted_perm. apply filter_perm. now apply Permutation_sym.
Qed.

(* ================================================================= *)
(** ** Further properties: tables and the run *)

Lemma mapR_ext_in {A B} (f g : A -> result B) l :
  (forall x, In x l -> f x = g x) -> mapR f l = mapR g l.
Proof.
  induction l as [|x l IH]; intros H; [reflexivity|].
  simpl. rewrite (H x (or_introl eq_refl)), IH; auto.
  intros y Hy. apply H. now right.
Qed.

Lemma mapR_app_raise {A B} (f : A -> result B) pre x post e :
  Forall (fun y => is_ok (f y) = true) pre ->
  f x = Raise e ->
  mapR f (pre ++ x :: post) = Raise e.
Proof.
  intros Hpre Hx. induction Hpre as [|y pre Hy _ IH]; simpl.
  - now rewrite Hx.
  - destruct (f y); [|discriminate]. simpl. now rewrite IH.
Qed.

Lemma forallb_map {A B} (f : A -> B) (p : B -> bool) l :
  forallb p (map f l) = forallb (fun x => p (f x)) l.
Proof. induction l; simpl; congruence. Qed.

Lemma forallb_true {A} (l : list A) : forallb (fun _ => true) l = true.
Proof. induction l; simpl; auto. Qed.

Section RunFacts.
Context `{FP : FloatParser}.

Lemma file_table_shape file raw_lines df :
  file_table file raw_lines = Ok df -> well_formed df.
Proof.
  intros H. apply file_table_ok in H
    as (version & particles & values & names & energies & errors
        & _ & _ & _ & _ & _ & _ & -> & Hl1 & Hl2).
  unfold well_formed, labelled_numbers. simpl. rewrite !length_map.
  repeat split; try lia.
  - rewrite forallb_map. apply forallb_true.
  - exists version, (map CNum energies). split; [reflexivity|].
    rewrite forallb_map. apply forallb_true.
  - exists particles, (map CNum errors). split; [reflexivity|].
    rewrite forallb_map. apply forallb_true.
Qed.


(** X8: Every table [file_table] returns has three columns of one length with
    at least the header row; the Names cells are labels, and the Values
    and Errors columns are numbers under one label. *)
Theorem file_table_well_formed (file : str) (raw_lines : list str)
    (df : DataFrame) (H : file_table file raw_lines = Ok df) :
  well_formed df.
Proof. exact (file_table_shape _ _ H). Qed.

(** X9: A file with a non-blank first line and no line that contains [tally]
    or equals [vals] gives a table of the header row alone. *)
Theorem file_without_sections (file : str) (raw_lines : list str)
    (first : str) (rest : list str)
    (Hlines : remove_blank_lines raw_lines = first :: rest)
    (Hnone : Forall (fun line => contains $"tally" line = false
                                 /\ line <> $"vals") (first :: rest)) :
  exists version particles,
    extract_version [first] = Ok version
    /\ extract_particles [first] = Ok particles
    /\ file_table file raw_lines
       = Ok {| Names := [CStr (fst (splitext file))];
               Values := [CStr version];
               Errors := [CStr particles] |}.
Proof.
  destruct (extract_version_total first rest) as [v Hv].
  destruct (extract_particles_total first rest) as [p Hp].
  exists v, p.
  assert (Hv1 : extract_version [first] = Ok v)
    by (rewrite <- Hv; reflexivity).
  assert (Hp1 : extract_particles [first] = Ok p)
    by (rewrite <- Hp; reflexivity).
  split; [exact Hv1|]. split; [exact Hp1|].
  rewrite file_table_steps. cbv zeta. rewrite Hlines, Hv, Hp. cbn [rbind].
  rewrite extract_tally_values_at, extract_tally_names_at.
  rewrite !extract_at_no_match.
  - reflexivity.
  - eapply Forall_impl; [|exact Hnone]. now intros l [Ht _].
  - eapply Forall_impl; [|exact Hnone]. intros l [_ Hl].
    destruct (str_eqb l $"vals") eqn:E; [|reflexivity].
    apply str_eqb_eq in E. contradiction.
Qed.



(** X13: The exception of the run is the one of the first file, in sorted
    order, whose processing raises; the files after it are not looked
    at. *)
Theorem first_failure_wins (w : world) (directory_path : str)
    (names before after : list str) (file : str) (e : exn)
    (Hlist : listing w directory_path = Ok names)
    (Hsplit : mctal_files_of names = before ++ file :: after)
    (Hbefore : Forall (fun f => is_ok (load_table w directory_path f) = true)
                      before)
    (Hfail : load_table w directory_path file = Raise e) :
  process_files directory_path w = (Raise e, w)
  /\ forall w2,
       listing w2 directory_path = Ok names ->
       (forall f, In f (before ++ [file]) ->
                  lines_of w2 (path_join directory_path f)
                  = lines_of w (path_join directory_path f)) ->
       fst (process_files directory_path w2) = Raise e.
Proof.
  split.
  - rewrite process_files_unfold, Hlist, Hsplit.
    now rewrite (mapR_app_raise _ _ after Hbefore Hfail).
  - intros w2 Hl2 Hsame.
    assert (Hload : forall f, In f (before ++ [file]) ->
              load_table w2 directory_path f = load_table w directory_path f).
    { intros f Hin. unfold load_table. now rewrite (Hsame f Hin). }
    rewrite process_files_unfold, Hl2, Hsplit.
    rewrite (@mapR_app_raise _ _ (load_table w2 directory_path)
                             before file after e).
    + reflexivity.
    + apply Forall_forall. intros f Hin.
      rewrite Hload by (apply in_or_app; now left).
      rewrite Forall_forall in Hbefore. now apply Hbefore.
    + rewrite Hload by (apply in_or_app; right; now left). exact Hfail.
Qed.


Lemma process_files_same_inputs (w1 w2 : world) (directory_path : str)
    (names1 names2 : list str) :
  listing w1 directory_path = Ok names1 ->
  listing w2 directory_path = Ok names2 ->
  Permutation (filter (endswith $".mctal") names1)
              (filter (endswith $".mctal") names2) ->
  (forall file,
     In file names1 -> endswith $".mctal" file = true ->
     lines_of w1 (path_join directory_path file)
     = lines_of w2 (path_join directory_path file)) ->
  fst (process_files directory_path w1) = fst (process_files directory_path w2)
  /\ (fst (process_files directory_path w1) = Ok tt ->
      workbook (snd (process_files directory_path w1))
               (output_path directory_path)
      = workbook (snd (process_files directory_path w2))
                 (output_path directory_path)).
Proof.
  intros Hl1 Hl2 Hsame Hlines.
  assert (Hfiles : mctal_files_of names2 = mctal_files_of names1).
  { unfold mctal_files_of. apply sorted_unique; try apply sorted_sorted.
    rewrite !sorted_perm. now apply Permutation_sym. }
  assert (Hmap : mapR (load_table w2 directory_path) (mctal_files_of names1)
                 = mapR (load_table w1 directory_path) (mctal_files_of names1)).
  { apply mapR_ext_in. intros f Hin. apply In_mctal_files in Hin as [Hin He].
    unfold load_table. now rewrite (Hlines f Hin He). }
  rewrite !process_files_unfold, Hl1, Hl2, Hfiles, Hmap.
  destruct (mapR (load_table w1 directory_path) (mctal_files_of names1));
    simpl; [|split; [reflexivity|discriminate]].
  fold (output_path directory_path). now rewrite str_eqb_refl.
Qed.

(** X15: The outcome of the run depends only on the [.mctal] names of the
    listing, whatever their order, and on the lines of those files: two
    directories that agree on these give the same result and, on success,
    the same report. *)
Theorem run_depends_on_mctal_files (w1 w2 : world) (directory_path : str)
    (names1 names2 : list str)
    (Hl1 : listing w1 directory_path = Ok names1)
    (Hl2 : listing w2 directory_path = Ok names2)
    (Hsame : Permutation (filter (endswith $".mctal") names1)
                         (filter (endswith $".mctal") names2))
    (Hlines : forall file,
        In file names1 -> endswith $".mctal" file = true ->
        lines_of w1 (path_join directory_path file)
        = lines_of w2 (path_join directory_path file)) :
  fst (process_files directory_path w1) = fst (process_files directory_path w2)
  /\ (fst (process_files directory_path w1) = Ok tt ->
      workbook (snd (process_files directory_path w1))
               (output_path directory_path)
      = workbook (snd (process_files directory_path w2))
                 (output_path directory_path)).
Proof.
  exact (@process_files_same_inputs w1 w2 directory_path names1 names2
           Hl1 Hl2 Hsame Hlines).
Qed.

(** X16: A report left in the directory by an earlier run is not an input: a
    directory that lists [tally_extractor.xlsx] besides the same files
    gives the same result and the same report. *)
Theorem rerun_ignores_report (w1 w2 : world) (directory_path : str)
    (names : list str)
    (Hl1 : listing w1 directory_path = Ok names)
    (Hl2 : listing w2 directory_path = Ok ($"tally_extractor.xlsx" :: names))
    (Hlines : forall file,
        In file names -> endswith $".mctal" file = true ->
        lines_of w1 (path_join directory_path file)
        = lines_of w2 (path_join directory_path file)) :
  fst (process_files directory_path w1) = fst (process_files directory_path w2)
  /\ (fst (process_files directory_path w1) = Ok tt ->
      workbook (snd (process_files directory_path w1))
               (output_path directory_path)
      = workbook (snd (process_files directory_path w2))
                 (output_path directory_path)).
Proof.
  apply (@process_files_same_inputs w1 w2 directory_path names
           ($"tally_extractor.xlsx" :: names) Hl1 Hl2);
    [|exact Hlines].
  exact (Permutation_refl (filter (endswith $".mctal") names)).
Qed.

End RunFacts.

(* ================================================================= *)
(** ** The further properties on the sample directory *)

Lemma extracted_tokens_clean_witness :
  extract_errors [ $" 1.0 2.0 0.05"; $"7.5 " ] = Ok [ $"0.05"; $"7.5" ]
  /\ Forall2 (fun value token => In token (split value) /\ clean_token token)
             [ $" 1.0 2.0 0.05"; $"7.5 " ] [ $"0.05"; $"7.5" ].
Proof.
  assert (H : extract_errors [ $" 1.0 2.0 0.05"; $"7.5 " ]
              = Ok [ $"0.05"; $"7.5" ]) by reflexivity.
  split; [exact H|].
  exact (@extracted_tokens_clean _ _ (or_intror H)).
Defined.

Lemma extract_tokens_padding_witness :
  Forall2 padded [ $"1.0 2.0 0.05"; $"" ] [ $"  1.0 2.0 0.05 "; $"   " ]
  /\ extract_energies [ $"  1.0 2.0 0.05 "; $"   " ]
     = extract_energies [ $"1.0 2.0 0.05"; $"" ]
  /\ extract_errors [ $"  1.0 2.0 0.05 "; $"   " ]
     = extract_errors [ $"1.0 2.0 0.05"; $"" ].
Proof.
  assert (H : Forall2 padded [ $"1.0 2.0 0.05"; $"" ]
                             [ $"  1.0 2.0 0.05 "; $"   " ]).
  { constructor; [|constructor; [|constructor]].
    - exists $"  ", $" ". repeat split.
    - exists $"   ", []. repeat split. }
  split; [exact H|]. exact (@extract_tokens_padding _ _ H).
Defined.

Lemma file_table_layout_witness :
  Forall2 padded sample_plain sample_indented
  /\ file_table (FP := DecimalParser) $"a.mctal" sample_indented
     = file_table $"a.mctal" sample_plain
  /\ file_table (FP := DecimalParser) $"a.mctal"
       ([ $"mcnpx 2.7 12345678 1" ] ++ $"   "
        :: [ $"tally 4"; $"f 0"; $"flux cell 1"; $"vals"; $"1.0 2.0 0.05" ])
     = file_table $"a.mctal" sample_indented.
Proof.
  assert (H : Forall2 padded sample_plain sample_indented).
  { unfold sample_plain, sample_indented.
    repeat (constructor;
            [first [ exists [], $"  "; repeat split; reflexivity
                   | exists $" ", []; repeat split; reflexivity
                   | exists $"  ", []; repeat split; reflexivity
                   | exists $"   ", $" "; repeat split; reflexivity ]|]).
    constructor. }
  destruct (@file_table_layout DecimalParser $"a.mctal" _ _ H)
    as [H1 H2].
  split; [exact H|]. split; [exact H1|].
  apply H2; reflexivity.
Defined.

Lemma file_table_well_formed_witness :
  file_table $"good.mctal" sample_good = Ok sample_good_table
  /\ well_formed sample_good_table.
Proof.
  assert (H : file_table $"good.mctal" sample_good = Ok sample_good_table)
    by reflexivity.
  split; [exact H|]. exact (@file_table_well_formed _ _ _ _ H).
Defined.

Lemma file_without_sections_witness :
  remove_blank_lines [ $"  mcnpx 2.7 "; $""; $"end" ]
  = [ $"mcnpx 2.7"; $"end" ]
  /\ exists version particles,
       extract_version [ $"mcnpx 2.7" ] = Ok version
       /\ extract_particles [ $"mcnpx 2.7" ] = Ok particles
       /\ file_table (FP := DecimalParser) $"empty.mctal"
            [ $"  mcnpx 2.7 "; $""; $"end" ]
          = Ok {| Names := [CStr $"empty"];
                  Values := [CStr version];
                  Errors := [CStr particles] |}.
Proof.
  assert (H : remove_blank_lines [ $"  mcnpx 2.7 "; $""; $"end" ]
              = [ $"mcnpx 2.7"; $"end" ]) by reflexivity.
  split; [exact H|].
  apply (@file_without_sections DecimalParser $"empty.mctal" _ _ _ H).
  repeat constructor; discriminate.
Defined.



Lemma first_failure_wins_witness :
  mctal_files_of [ $"short.mctal"; $"mismatch.mctal"; $"good.mctal" ]
  = [ $"good.mctal" ] ++ $"mismatch.mctal" :: [ $"short.mctal" ]
  /\ load_table
       (sample_world [ $"short.mctal"; $"mismatch.mctal"; $"good.mctal" ])
       $"runs" $"mismatch.mctal" = Raise ValueError
  /\ load_table
       (sample_world [ $"short.mctal"; $"mismatch.mctal"; $"good.mctal" ])
       $"runs" $"short.mctal" = Raise IndexError
  /\ process_files $"runs"
       (sample_world [ $"short.mctal"; $"mismatch.mctal"; $"good.mctal" ])
     = (Raise ValueError,
        sample_world [ $"short.mctal"; $"mismatch.mctal"; $"good.mctal" ]).
Proof.
  do 3 (split; [reflexivity|]).
  apply (@first_failure_wins DecimalParser
           (sample_world [ $"short.mctal"; $"mismatch.mctal"; $"good.mctal" ])
           $"runs" [ $"short.mctal"; $"mismatch.mctal"; $"good.mctal" ]
           [ $"good.mctal" ] [ $"short.mctal" ] $"mismatch.mctal" ValueError).
  - reflexivity.
  - reflexivity.
  - repeat constructor.
  - reflexivity.
Defined.

Lemma run_depends_on_mctal_files_witness :
  fst (process_files $"runs"
         (sample_world [ $"good.mctal"; $"notes.txt"; $"short.mctal" ]))
  = fst (process_files $"runs"
           (sample_world [ $"short.mctal"; $"good.mctal" ])).
Proof.
  apply (@run_depends_on_mctal_files DecimalParser
           (sample_world [ $"good.mctal"; $"notes.txt"; $"short.mctal" ])
           (sample_world [ $"short.mctal"; $"good.mctal" ])
           $"runs"
           [ $"good.mctal"; $"notes.txt"; $"short.mctal" ]
           [ $"short.mctal"; $"good.mctal" ]).
  - reflexivity.
  - reflexivity.
  - apply perm_swap.
  - intros file _ _. reflexivity.
Defined.

Lemma rerun_ignores_report_witness :
  fst (process_files $"runs" (sample_world [ $"good.mctal" ]))
  = fst (process_files $"runs"
           (sample_world [ $"tally_extractor.xlsx"; $"good.mctal" ]))
  /\ workbook (snd (process_files $"runs" (sample_world [ $"good.mctal" ])))
              (output_path $"runs")
     = workbook
         (snd (process_files $"runs"
                 (sample_world [ $"tally_extractor.xlsx"; $"good.mctal" ])))
         (output_path $"runs").
Proof.
  destruct (@rerun_ignores_report DecimalParser
              (sample_world [ $"good.mctal" ])
              (sample_world [ $"tally_extractor.xlsx"; $"good.mctal" ])
              $"runs" [ $"good.mctal" ]) as [H1 H2].
  - reflexivity.
  - reflexivity.
  - intros file _ _. reflexivity.
  - split; [exact H1|]. apply H2. reflexivity.
Defined.

(* ================================================================= *)
(** ** Further properties: which lines are extracted *)

Lemma contains_iff p s :
  contains p s = true <-> exists pre post, s = pre ++ p ++ post.
Proof.
  induction s as [|c s IH].
  - simpl. rewrite orb_false_r, startswith_iff. split.
    + intros [r H]. now exists [], r.
    + intros (pre & post & H). destruct pre; [now exists post|discriminate].
  - cbn [contains]. rewrite orb_true_iff, startswith_iff, IH. split.
    + intros [[r H]|(pre & post & ->)].
      * now exists [], r.
      * now exists (c :: pre), post.
    + intros ([|x pre] & post & H).
      * left. now exists post.
      * right. injection H as _ ->. now exists pre, post.
Qed.

(** X4: When both extractions return, the tally names are exactly the lines
    two below a line that has [tally] as a substring, and the value lines
    exactly the lines right below a line equal to [vals]; there are as
    many of each as there are such lines. *)
Theorem tally_sections_members (file_lines names values : list str)
    (Hn : extract_tally_names file_lines = Ok names)
    (Hv : extract_tally_values file_lines = Ok values) :
  (forall name,
     In name names <->
     exists i pre post,
       nth_error file_lines i = Some (pre ++ $"tally" ++ post)
       /\ nth_error file_lines (i + 2) = Some name)
  /\ (forall value,
        In value values <->
        exists i,
          nth_error file_lines i = Some $"vals"
          /\ nth_error file_lines (i + 1) = Some value)
  /\ length names = count_tally file_lines
  /\ length values = count_vals file_lines.
Proof.
  rewrite extract_tally_names_at in Hn.
  rewrite extract_tally_values_at in Hv.
  split; [|split; [|split]].
  - intros name. rewrite (@extract_at_ok_members _ _ _ _ Hn name). split.
    + intros (i & line & Hi & Ht & Hnext).
      apply contains_iff in Ht as (pre & post & ->). eauto.
    + intros (i & pre & post & Hi & Hnext).
      exists i, (pre ++ $"tally" ++ post). repeat split; auto.
      apply contains_iff. eauto.
  - intros value. rewrite (@extract_at_ok_members _ _ _ _ Hv value). split.
    + intros (i & line & Hi & Ht & Hnext).
      apply str_eqb_eq in Ht. subst line. eauto.
    + intros (i & Hi & Hnext). exists i, $"vals". repeat split; auto.
  - exact (@extract_at_ok_length _ _ _ _ Hn).
  - exact (@extract_at_ok_length _ _ _ _ Hv).
Qed.

Lemma tally_sections_members_witness :
  extract_tally_names sample_plain = Ok [ $"flux cell 1" ]
  /\ extract_tally_values sample_plain = Ok [ $"1.0 2.0 0.05" ]
  /\ (In $"flux cell 1" [ $"flux cell 1" ] <->
      exists i pre post,
        nth_error sample_plain i = Some (pre ++ $"tally" ++ post)
        /\ nth_error sample_plain (i + 2) = Some $"flux cell 1")
  /\ length [ $"flux cell 1" ] = count_tally sample_plain.
Proof.
  assert (Hn : extract_tally_names sample_plain = Ok [ $"flux cell 1" ])
    by reflexivity.
  assert (Hv : extract_tally_values sample_plain = Ok [ $"1.0 2.0 0.05" ])
    by reflexivity.
  destruct (@tally_sections_members _ _ _ Hn Hv) as (H1 & _ & H3 & _).
  split; [exact Hn|]. split; [exact Hv|]. split; [apply H1|exact H3].
Defined.
